(** * CodeNNVis: the AST tree diagram ([components/tree.py])

    A shallow embedding of class [Tree]: the constructor that presizes the
    [colors] and [text] lists, the recursive traversal [__add_child_edges],
    and [get_figure], which builds the attributes, asks igraph for a
    Reingold-Tilford layout and turns the layout into plot coordinates.

    Python integers are [Z], strings are [string], lists are [list], the
    palette dictionary [DIAGRAM_COLORS] is a [gmap string string].  A method
    that mutates [self] and may raise is a function from the instance state
    to the new state and either an exception or a value. *)

From stdpp Require Import gmap strings list pretty.

Local Open Scope Z_scope.

(** ** Python values used by the class *)

(** The exceptions the modelled statements can raise. *)
Inductive exn : Type :=
  | IndexError
  | KeyError (key : string)
  | KeyErrorInt (key : Z)
  | ValueError
  | ExternalError (code : Z).  (* raised inside igraph *)

(** A node of the pre-processed JSON: [node['master_index']],
    [node['container']] and the optional key [node['children']]. *)
#[local] Unset Elimination Schemes.
Inductive node : Type :=
  | Node (master_index : Z) (container : string) (children : option (list node)).
#[local] Set Elimination Schemes.

Definition master_index (n : node) : Z :=
  match n with Node i _ _ => i end.
Definition container (n : node) : string :=
  match n with Node _ c _ => c end.
Definition children (n : node) : option (list node) :=
  match n with Node _ _ ch => ch end.

(** [self.data]: the keys [nodes_count] and [nodes]. *)
Record data : Type := Data {
  nodes_count : Z;
  nodes : list node
}.

(** The attributes of a [Tree] instance. *)
Record Tree : Type := MkTree {
  tree_data : data;
  edges : list (Z * Z);
  colors : list string;
  text : list string
}.

(** [len(range(n))]: empty for a negative [n]. *)
Definition range_len (n : Z) : nat := Z.to_nat n.

(** [l[i] = v] on a Python list: an index in [0, len) addresses from the
    front, one in [-len, 0) from the end, any other raises IndexError. *)
Definition py_setitem {A} (l : list A) (i : Z) (v : A) : option (list A) :=
  let n := Z.of_nat (length l) in
  if bool_decide (0 ≤ i < n) then Some (<[Z.to_nat i := v]> l)
  else if bool_decide (- n ≤ i < 0) then Some (<[Z.to_nat (n + i) := v]> l)
  else None.

(** The slot of the list that index [i] addresses, when there is one. *)
Definition py_slot (len : nat) (i : Z) : option nat :=
  let n := Z.of_nat len in
  if bool_decide (0 ≤ i < n) then Some (Z.to_nat i)
  else if bool_decide (- n ≤ i < 0) then Some (Z.to_nat (n + i))
  else None.

(** ['({}, {})'.format(i, c)]; [pretty] prints an integer in decimal with a
    leading minus sign when negative, as [str] does. *)
Definition format_text (i : Z) (c : string) : string :=
  "(" +:+ pretty i +:+ ", " +:+ c +:+ ")".

(** ** Methods as state transformers *)

Definition M (A : Type) : Type := Tree → Tree * (exn + A).

Definition ret {A} (a : A) : M A := λ t, (t, inr a).
Definition raise {A} (e : exn) : M A := λ t, (t, inl e).
Definition bind {A B} (m : M A) (k : A → M B) : M B :=
  λ t, match m t with
       | (t', inr a) => k a t'
       | (t', inl e) => (t', inl e)
       end.

#[export] Instance M_ret : MRet M := @ret.
#[export] Instance M_bind : MBind M := λ A B k m, bind m k.

(** Statements that read no attribute of [self]: they raise or give a value. *)
#[export] Instance exn_ret : MRet (sum exn) := λ A, inr.
#[export] Instance exn_bind : MBind (sum exn) := λ A B k m,
  match m with
  | inr a => k a
  | inl e => inl e
  end.

Definition lift {A} (r : exn + A) : M A := λ t, (t, r).
Definition get_self : M Tree := λ t, (t, inr t).

(** The plot coordinates [get_figure] computes: the locals [nodes_x],
    [nodes_y], [edges_x] and [edges_y]; an edge list holds [None] after the
    two end points of every edge. *)
Record coords (num : Type) : Type := Coords {
  nodes_x : list num;
  nodes_y : list num;
  edges_x : list (option num);
  edges_y : list (option num)
}.
Arguments Coords {num}.
Arguments nodes_x {num}.
Arguments nodes_y {num}.
Arguments edges_x {num}.
Arguments edges_y {num}.

(** What [get_figure] hands to plotly: the line trace, the marker trace and
    the layout options that depend on the orientation. *)
Record figure (num : Type) : Type := Figure {
  fig_coords : coords num;
  fig_line_color : string;
  fig_marker_color : list string;
  fig_text : list string;
  fig_height : option Z;
  fig_margin : Z * Z * Z * Z
}.
Arguments Figure {num}.
Arguments fig_coords {num}.
Arguments fig_line_color {num}.
Arguments fig_marker_color {num}.
Arguments fig_text {num}.
Arguments fig_height {num}.
Arguments fig_margin {num}.

(** The floats of the layout, with the operations [get_figure] applies to
    them: [2 * max_y] converts the integer, [max] compares with [>], and
    [-x if x else x] tests the truth value. *)
Class NumOps (num : Type) : Type := {
  num_of_int : Z → num;
  num_mul : num → num → num;
  num_sub : num → num → num;
  num_neg : num → num;
  num_gt : num → num → bool;
  num_truth : num → bool
}.

(** igraph: [Graph(n=n, directed=True)], [add_edges(edges)] and
    [layout_reingold_tilford(mode='out', root=[0])], one coordinate pair per
    vertex. *)
Class Igraph (num : Type) : Type :=
  layout_reingold_tilford : Z → list (Z * Z) → exn + list (num * num).

Section tree.

(** [constant.DIAGRAM_COLORS], imported as [COLORS]. *)
Variable COLORS : gmap string string.

(** [COLORS[key]] *)
Definition colors_getitem (key : string) : M string := λ t,
  match COLORS !! key with
  | Some v => (t, inr v)
  | None => (t, inl (KeyError key))
  end.

(** [self.edges.append(e)] *)
Definition edges_append (e : Z * Z) : M unit := λ t,
  (MkTree (tree_data t) (edges t ++ [e]) (colors t) (text t), inr tt).

(** [self.colors[i] = v] *)
Definition colors_setitem (i : Z) (v : string) : M unit := λ t,
  match py_setitem (colors t) i v with
  | Some cs => (MkTree (tree_data t) (edges t) cs (text t), inr tt)
  | None => (t, inl IndexError)
  end.

(** [self.text[i] = v] *)
Definition text_setitem (i : Z) (v : string) : M unit := λ t,
  match py_setitem (text t) i v with
  | Some ts => (MkTree (tree_data t) (edges t) (colors t) ts, inr tt)
  | None => (t, inl IndexError)
  end.

(** [Tree.__init__] once [self.data] is set. *)
Definition init (d : data) : exn + Tree :=
  match COLORS !! "plot-line" with
  | Some line =>
      inr (MkTree d []
             (line :: replicate (range_len (nodes_count d)) "")
             ("root" :: replicate (range_len (nodes_count d)) ""))
  | None => inl (KeyError "plot-line")
  end.

(** The three statements that record one edge and one node; they open the
    body of both loops. *)
Definition record_node (parent : Z) (child : node) : M unit :=
  edges_append (parent, master_index child) ;;
  c ← colors_getitem (container child) ;
  colors_setitem (master_index child) c ;;
  text_setitem (master_index child)
    (format_text (master_index child) (container child)).

(** [Tree.__add_child_edges]; [node['children']] raises KeyError when the
    key is absent. *)
Fixpoint add_child_edges (n : node) : M unit :=
  match n with
  | Node index _ ch =>
      match ch with
      | None => raise (KeyError "children")
      | Some cs =>
          (fix loop (cs : list node) : M unit :=
             match cs with
             | [] => ret tt
             | child :: rest =>
                 record_node index child ;;
                 match children child with
                 | Some _ => add_child_edges child
                 | None => ret tt
                 end ;;
                 loop rest
             end) cs
      end
  end.

(** The first loop of [get_figure] (lines 128-136): the build traversal. *)
Fixpoint build_loop (ns : list node) : M unit :=
  match ns with
  | [] => ret tt
  | n :: rest =>
      record_node 0 n ;;
      match children n with
      | Some _ => add_child_edges n
      | None => ret tt
      end ;;
      build_loop rest
  end.

Definition build : M unit := λ t, build_loop (nodes (tree_data t)) t.

(** *** Layout and coordinates *)

Context `{NumOps num, Igraph num}.

(** [layout[k]] for the [k] of a [range] *)
Definition layout_getitem (layout : list (num * num)) (k : Z) : exn + (num * num) :=
  match layout !! Z.to_nat k with
  | Some p => inr p
  | None => inl IndexError
  end.

(** [positions[k]]: a dictionary, so a key it does not hold is a KeyError. *)
Definition positions_getitem (positions : gmap Z (num * num)) (k : Z)
  : exn + (num * num) :=
  match positions !! k with
  | Some p => inr p
  | None => inl (KeyErrorInt k)
  end.

(** [max(l)] *)
Definition py_max (l : list num) : exn + num :=
  match l with
  | [] => inl ValueError
  | x :: rest => inr (foldl (λ m y, if num_gt y m then y else m) x rest)
  end.

(** [2 * max_y - y] *)
Definition flip_depth (max_y y : num) : num :=
  num_sub (num_mul (num_of_int 2) max_y) y.

(** The loop over [self.edges] (lines 154-157). *)
Fixpoint edge_coords (positions : gmap Z (num * num)) (max_y : num)
    (es : list (Z * Z)) (ex ey : list (option num))
  : exn + (list (option num) * list (option num)) :=
  match es with
  | [] => inr (ex, ey)
  | edge :: rest =>
      p0 ← positions_getitem positions edge.1;
      p1 ← positions_getitem positions edge.2;
      let ey' := ey ++ [Some p0.1; Some p1.1; None] in
      let ex' := ex ++ [Some (flip_depth max_y p0.2);
                        Some (flip_depth max_y p1.2); None] in
      edge_coords positions max_y rest ex' ey'
  end.

(** Lines 149-157. *)
Definition raw_coords (positions : gmap Z (num * num)) (max_y : num)
    (es : list (Z * Z)) : exn + coords num :=
  let keys := seqZ 0 (Z.of_nat (size positions)) in
  nx ← mapM (λ k, p ← positions_getitem positions k;
                  mret (flip_depth max_y p.2)) keys;
  ny ← mapM (λ k, p ← positions_getitem positions k; mret p.1) keys;
  exy ← edge_coords positions max_y es [] [];
  mret (Coords nx ny exy.1 exy.2).

(** [-x if x else x] on an entry of an edge list; [None] is false. *)
Definition mirror (x : option num) : option num :=
  match x with
  | Some v => if num_truth v then Some (num_neg v) else Some v
  | None => None
  end.

(** Lines 159-173: swap the axes, or mirror both of them. *)
Definition orient (horizontal : bool) (c : coords num) : coords num :=
  if horizontal then
    Coords (nodes_y c) (nodes_x c) (edges_y c) (edges_x c)
  else
    Coords (num_neg <$> nodes_x c) (num_neg <$> nodes_y c)
           (mirror <$> edges_x c) (mirror <$> edges_y c).

(** Lines 138-157, on the attributes the build left in [t]: the layout and
    the coordinates before the orientation is looked at. *)
Definition layout_coords (t : Tree) : exn + coords num :=
  let n := nodes_count (tree_data t) + 1 in
  layout ← layout_reingold_tilford n (edges t);
  ps ← mapM (λ k, p ← layout_getitem layout k; mret (k, p)) (seqZ 0 n);
  let positions : gmap Z (num * num) := list_to_map (reverse ps) in
  ys ← mapM (λ k, p ← layout_getitem layout k; mret p.2) (seqZ 0 n);
  max_y ← py_max ys;
  raw_coords positions max_y (edges t).

(** Lines 138-173. *)
Definition plot_coords (horizontal : bool) (t : Tree) : exn + coords num :=
  c ← layout_coords t;
  mret (orient horizontal c).

(** [Tree.get_figure] *)
Definition get_figure (horizontal : bool) : M (figure num) :=
  build ;;
  t ← get_self;
  c ← lift (plot_coords horizontal t);
  line ← colors_getitem "plot-line";
  mret (Figure c line (colors t) (text t)
          (if horizontal then None else Some 650)
          (if horizontal then (40, 40, 10, 0) else (10, 10, 0, 0))).

End tree.

(** ** The traversal as a list of visits *)

(** One pass through the body of either loop: the parent whose children are
    being iterated, and the index and category of the child. *)
Record visit : Type := Visit {
  v_parent : Z;
  v_index : Z;
  v_container : string
}.

Definition visit_of (parent : Z) (n : node) : visit :=
  Visit parent (master_index n) (container n).

(** The visits [__add_child_edges n] makes, in the order it makes them. *)
Fixpoint child_visits (n : node) : list visit :=
  match n with
  | Node index _ ch =>
      match ch with
      | None => []
      | Some cs =>
          (fix go (cs : list node) : list visit :=
             match cs with
             | [] => []
             | child :: rest =>
                 visit_of index child :: child_visits child ++ go rest
             end) cs
      end
  end.

(** The visits of the whole build traversal: depth-first, parents first. *)
Fixpoint top_visits (ns : list node) : list visit :=
  match ns with
  | [] => []
  | n :: rest => visit_of 0 n :: child_visits n ++ top_visits rest
  end.

Definition visits (d : data) : list visit := top_visits (nodes d).

(** The indices and the categories of all the nodes of the input. *)
Definition indices (d : data) : list Z := v_index <$> visits d.
Definition containers (d : data) : list string := v_container <$> visits d.

Definition edge_of (v : visit) : Z * Z := (v_parent v, v_index v).

(** The length [__init__] gives [colors] and [text], and the indices that
    address an entry of a list of that length. *)
Definition slots (d : data) : Z := Z.of_nat (S (range_len (nodes_count d))).
Definition addressable (d : data) (i : Z) : Prop := - slots d ≤ i < slots d.

(** Every category of the input is a key of the palette. *)
Definition known_containers (COLORS : gmap string string) (d : data) : Prop :=
  Forall (λ c, is_Some (COLORS !! c)) (containers d).

(** A valid input: a count that is not negative, nodes whose indices are
    1..nodes_count, each exactly once, and categories the palette knows. *)
Definition valid_input (COLORS : gmap string string) (d : data) : Prop :=
  0 ≤ nodes_count d ∧
  indices d ≡ₚ seqZ 1 (nodes_count d) ∧
  known_containers COLORS d.

(** [record_node] on a visit, and a sequence of visits run in order. *)
Definition visit_step (COLORS : gmap string string) (v : visit) : M unit :=
  record_node COLORS (v_parent v) (Node (v_index v) (v_container v) None).

Fixpoint run_visits (COLORS : gmap string string) (vs : list visit) : M unit :=
  match vs with
  | [] => mret tt
  | v :: rest => visit_step COLORS v ;; run_visits COLORS rest
  end.

(** What a visit writes: the slot its index addresses in a list of [len]
    entries, the color of its category and its label. *)
Definition write_of (COLORS : gmap string string) (len : nat) (v : visit)
  : option (nat * (string * string)) :=
  slot ← py_slot len (v_index v);
  c ← COLORS !! v_container v;
  Some (slot, (c, format_text (v_index v) (v_container v))).

(** A list after a sequence of writes by slot. *)
Definition apply_writes {A} (l : list A) (ws : list (nat * A)) : list A :=
  foldl (λ acc w, <[w.1 := w.2]> acc) l ws.

(** The last value written to slot [k], if any. *)
Fixpoint last_write {A} (ws : list (nat * A)) (k : nat) : option A :=
  match ws with
  | [] => None
  | w :: rest =>
      match last_write rest k with
      | Some x => Some x
      | None => if decide (w.1 = k) then Some w.2 else None
      end
  end.

(** The instance after a run of visits that wrote [ws]. *)
Definition after_visits (t : Tree) (vs : list visit)
    (ws : list (nat * (string * string))) : Tree :=
  MkTree (tree_data t) (edges t ++ (edge_of <$> vs))
         (apply_writes (colors t) (prod_map id fst <$> ws))
         (apply_writes (text t) (prod_map id snd <$> ws)).

(** Induction on nodes, with the hypothesis for every child. *)
Section node_induction.

Variable P : node → Prop.
Hypothesis leaf : ∀ i c, P (Node i c None).
Hypothesis inner : ∀ i c cs, Forall P cs → P (Node i c (Some cs)).

Fixpoint node_ind (n : node) : P n :=
  match n with
  | Node i c None => leaf i c
  | Node i c (Some cs) =>
      inner i c cs
        ((fix all (cs : list node) : Forall P cs :=
            match cs with
            | [] => Forall_nil_2 P
            | child :: rest => Forall_cons_2 P _ _ (node_ind child) (all rest)
            end) cs)
  end.

End node_induction.

(** ** Predicates on the outputs *)

(** Every visit of [vs] has the parent [root] or the index of a visit
    before it. *)
Definition parents_first (root : Z) (vs : list visit) : Prop :=
  ∀ j v, vs !! j = Some v →
    v_parent v = root ∨
    ∃ j' u, (j' < j)%nat ∧ vs !! j' = Some u ∧ v_index u = v_parent v.

(** Reads an edge coordinate list as a sequence of segments, each two
    coordinates followed by [None], and counts them. *)
Fixpoint segments {A} (l : list (option A)) : option nat :=
  match l with
  | [] => Some 0%nat
  | Some _ :: Some _ :: None :: rest => S <$> segments rest
  | _ => None
  end.

(** The node with every empty [children] list, at any depth, replaced by an
    absent key. *)
Fixpoint strip_empty (n : node) : node :=
  match n with
  | Node i c None => Node i c None
  | Node i c (Some []) => Node i c None
  | Node i c (Some cs) => Node i c (Some (strip_empty <$> cs))
  end.

Definition strip_data (d : data) : data :=
  Data (nodes_count d) (strip_empty <$> nodes d).

(** * The activation heat maps ([components/network.py]) *)

Module Network.

Definition MARGIN_TOP : Z := 10.
Definition MARGIN_LEFT : Z := 50.
Definition MARGIN_RIGHT : Z := 50.
Definition MARGIN_BOTTOM : Z := 10.
Definition CELL_SIZE : Z := 4.
Definition ARROW_SIZE : Z := 6.
Definition MAX_Y : Z := 215.
Definition INPUT_WIDTH : Z := 3.
Definition LSTM1_WIDTH : Z := 128.
Definition LSTM2_WIDTH : Z := 3.
Definition OUTPUT_WIDTH : Z := 3.
Definition LAYERS_LAYOUT_WIDTH : Z :=
  4 * INPUT_WIDTH + 2 * LSTM1_WIDTH + LSTM2_WIDTH + OUTPUT_WIDTH + 40.

(** How Python prints a float in [format], and [round(v, 5)]. *)
Class NumText (num : Type) : Type := {
  num_str : num → string;
  num_round5 : num → num
}.

(** A numpy array of activations, of rank 2 (batch, units) or of rank 3
    (batch, rows, columns): what [tolist] gives, nested per axis. *)
Inductive ndarray (num : Type) : Type :=
  | Arr2 (a : list (list num))
  | Arr3 (a : list (list (list num))).
Arguments Arr2 {num}.
Arguments Arr3 {num}.

(** A cell of the one-column heat map: the integer it is created with or
    the activation written over it. *)
Inductive zval (num : Type) : Type :=
  | ZInt (z : Z)
  | ZFloat (a : num).
Arguments ZInt {num}.
Arguments ZFloat {num}.

(** The traces [get_figure] adds: the heat map of a layer of units, whose
    [zmin] and [zmax] are always -1 and 1, the heat map of one half of a
    layer of rows, and the arrow. *)
Inductive trace (num : Type) : Type :=
  | Heat1D (z : list (zval num)) (x y : list Z) (hovertext : list (option string))
  | Heat2D (z : list (list num)) (x y : list Z)
           (hovertext : list (list (option string))) (zmin zmax : Z)
  | Arrow.
Arguments Heat1D {num}.
Arguments Heat2D {num}.
Arguments Arrow {num}.

(** The figure: every trace with the column of the subplot grid it was
    added to, and the size of the layout.  The widths of the twelve columns,
    floats that only plotly reads, are left out. *)
Record figure (num : Type) : Type := Figure {
  traces : list (Z * trace num);
  width : Z;
  height : Z
}.
Arguments Figure {num}.
Arguments traces {num}.
Arguments width {num}.
Arguments height {num}.

Section network.

Context `{NumText num}.

(** [l[i] = v] as a statement that may raise. *)
Definition setitem {A} (l : list A) (i : Z) (v : A) : exn + list A :=
  match py_setitem l i v with
  | Some l' => inr l'
  | None => inl IndexError
  end.

(** ['y: {}<br>value: {}'.format(y, activation)] *)
Definition unit_text (y : Z) (a : num) : string :=
  "y: " +:+ pretty y +:+ "<br>value: " +:+ num_str a.

(** ['x: {}<br>y: {}<br>value: {}'.format(x, y, round(v, 5))] *)
Definition cell_text (x y : Z) (v : num) : string :=
  "x: " +:+ pretty x +:+ "<br>y: " +:+ pretty y +:+ "<br>value: "
  +:+ num_str (num_round5 v).

(** The loop over [enumerate(current_layer)] (lines 129-139), entered with
    the counter [i] and the position [index]. *)
Fixpoint fill_units (len : Z) (layer : list num) (i index : Z)
    (activations : list (zval num)) (text : list (option string))
  : exn + (list (zval num) * list (option string)) :=
  match layer with
  | [] => inr (activations, text)
  | activation :: rest =>
      a1 ← setitem activations index (ZFloat activation);
      a2 ← setitem a1 (index + 1) (ZFloat activation);
      a3 ← setitem a2 (index + 2) (ZFloat activation);
      t1 ← setitem text index (Some (unit_text (len - 1 - i) activation));
      t2 ← setitem t1 (index + 1) (Some (unit_text (len - 1 - i) activation));
      t3 ← setitem t2 (index + 2) (Some (unit_text (len - 1 - i) activation));
      fill_units len rest (i + 1) (index + 3) a3 t3
  end.

(** Lines 122-156: the heat map of a layer of units. *)
Definition units_trace (layer : Z) (current_layer : list num)
  : exn + trace num :=
  let activations := replicate (Z.to_nat MAX_Y) (ZInt 0) in
  let y := seqZ 0 MAX_Y in
  let x := replicate (Z.to_nat MAX_Y) 0 in
  let text := replicate (Z.to_nat MAX_Y) None in
  let reversed := reverse current_layer in
  let index := if decide (layer = 3) then 11 else 92 in
  r ← fill_units (Z.of_nat (length reversed)) reversed 0 index activations text;
  mret (Heat1D r.1 x y r.2).

(** The loop over [j] (lines 183-189 and 196-202) on row [i]. *)
Fixpoint fill_row (source : list num) (y : Z) (js : list nat)
    (row : list (option string)) : exn + list (option string) :=
  match js with
  | [] => inr row
  | j :: rest =>
      match source !! j with
      | None => inl IndexError
      | Some v =>
          fill_row source y rest
            (<[j := Some (cell_text (Z.of_nat j) y v)]> row)
      end
  end.

(** The loop over [i] (lines 182-189 and 195-202); [top] is [MAX_Y] for the
    first half and [2 * MAX_Y] for the second. *)
Fixpoint fill_rows (top : Z) (half : list (list num)) (w : nat)
    (range_i : list nat) (text : list (list (option string)))
  : exn + list (list (option string)) :=
  match range_i with
  | [] => inr text
  | i :: rest =>
      match half !! i, text !! i with
      | Some source, Some row =>
          row' ← fill_row source (top - Z.of_nat i - 1) (seq 0 w) row;
          fill_rows top half w rest (<[i := row']> text)
      | _, _ => inl IndexError
      end
  end.

(** Lines 178-189 and 191-202: the hover texts of one reversed half; the
    width is read from its first row once there is a row. *)
Definition half_text (top : Z) (half : list (list num))
  : exn + list (list (option string)) :=
  match half with
  | [] => inr []
  | row0 :: _ =>
      let w := length row0 in
      fill_rows top half w (seq 0 (length half))
        (replicate (length half) (replicate w None))
  end.

(** Lines 160-237: the two heat maps of a layer of rows. *)
Definition rows_traces (current_layer : list (list num))
  : exn + (trace num * trace num) :=
  let first_half := take (Z.to_nat MAX_Y) current_layer in
  let second_half := drop (Z.to_nat MAX_Y) current_layer in
  let reversed_first_half := reverse first_half in
  let reversed_second_half := reverse second_half in
  match first_half with
  | [] => inl IndexError
  | row0 :: _ =>
      let x := seqZ 0 (Z.of_nat (length row0)) in
      let y := seqZ 0 (Z.of_nat (length first_half)) in
      text_first_half ← half_text MAX_Y reversed_first_half;
      text_second_half ← half_text (2 * MAX_Y) reversed_second_half;
      let zmin := if decide (Z.of_nat (length x) = INPUT_WIDTH) then -2 else -1 in
      let zmax := if decide (Z.of_nat (length x) = INPUT_WIDTH) then 2 else 1 in
      mret (Heat2D reversed_first_half x y text_first_half zmin zmax,
            Heat2D reversed_second_half x y text_second_half zmin zmax)
  end.

(** One pass through the loop over the layers (lines 115-246): the traces
    it adds, starting at column [col], and the column it leaves. *)
Definition layer_traces (count : Z) (col : Z) (layer : Z) (a : ndarray num)
  : exn + (list (Z * trace num) * Z) :=
  r ← match a with
      | Arr2 [] => inl IndexError
      | Arr2 (current_layer :: _) =>
          t ← units_trace layer current_layer;
          mret ([(col, t)], col + 1)
      | Arr3 [] => inl IndexError
      | Arr3 (current_layer :: _) =>
          ts ← rows_traces current_layer;
          mret ([(col, ts.1); (col + 1, ts.2)], col + 2)
      end;
  if decide (layer ≠ count - 1)
  then mret (r.1 ++ [(r.2, Arrow)], r.2 + 1)
  else mret r.

(** The loop over [self.sample.activations], a dictionary from the number
    of a layer to its array, in the order of its keys. *)
Fixpoint layers_loop (count : Z) (col : Z) (layers : list (Z * ndarray num))
  : exn + list (Z * trace num) :=
  match layers with
  | [] => inr []
  | (layer, a) :: rest =>
      r ← layer_traces count col layer a;
      ts ← layers_loop count r.2 rest;
      mret (r.1 ++ ts)
  end.

(** [Network.get_figure] on [self.sample.activations]. *)
Definition get_figure (activations : list (Z * ndarray num))
  : exn + figure num :=
  ts ← layers_loop (Z.of_nat (length activations)) 1 activations;
  mret (Figure ts
          (MARGIN_RIGHT + MARGIN_LEFT + CELL_SIZE * LAYERS_LAYOUT_WIDTH
           + 4 * CELL_SIZE * ARROW_SIZE)
          (MARGIN_TOP + MARGIN_BOTTOM + CELL_SIZE * MAX_Y)).

(** The hover texts of a reversed half as a table: the cell in row [i] and
    column [j] names the column [j], the row [top - i - 1] and the rounded
    value of the cell. *)
Definition expected_text (top : Z) (half : list (list num))
  : list (list (option string)) :=
  imap (λ i source,
          imap (λ j v, Some (cell_text (Z.of_nat j)
                               (top - Z.of_nat i - 1) v)) source) half.


End network.

End Network.

(** ** Sample inputs *)

Module Samples.

(** Modelled from the spec: the palette [constant.DIAGRAM_COLORS] is not
    among the sources.  The keys are the statement types of the class
    docstring and the key [plot-line] the class reads; the values stand for
    the configured tints. *)
Definition COLORS : gmap string string :=
  list_to_map [("plot-line", "#888888"); ("require", "#ff0000");
               ("variable", "#00ff00"); ("function", "#0000ff");
               ("interface", "#ffff00"); ("other", "#ff00ff")].

(** Integers in place of floats. *)
Definition Z_num : NumOps Z := {|
  num_of_int := id;
  num_mul := Z.mul;
  num_sub := Z.sub;
  num_neg := Z.opp;
  num_gt := Z.gtb;
  num_truth := λ x, negb (x =? 0)
|}.

(** A stand-in for the igraph call: vertex [k] at order [k], the root at
    depth 0 and every other vertex at depth 1. *)
Definition star_layout : Igraph Z := λ n es,
  inr ((λ k, (k, if decide (k = 0) then 0 else 1)) <$> seqZ 0 n).

(** Scenario A of the specification. *)
Definition scenario_A : data :=
  Data 3 [Node 1 "function" (Some [Node 2 "variable" None]);
          Node 3 "require" None].

(** Scenario D: two nodes declared, three supplied. *)
Definition scenario_D : data :=
  Data 2 [Node 1 "function" None; Node 2 "variable" None;
          Node 3 "require" None].

(** An index that occurs twice. *)
Definition duplicated : data :=
  Data 2 [Node 1 "function" None; Node 1 "variable" None].

(** Three nodes declared, one supplied. *)
Definition undercount : data :=
  Data 3 [Node 1 "function" None].

(** An index of zero: the slot of the synthetic root. *)
Definition zero_index : data :=
  Data 1 [Node 0 "function" None].

(** A negative index. *)
Definition negative_index : data :=
  Data 2 [Node 1 "function" None; Node (-2) "variable" None].

Definition tree (d : data) : Tree :=
  match init COLORS d with
  | inr t => t
  | inl _ => MkTree d [] [] []
  end.

Definition figure_of (horizontal : bool) (t : Tree) : Tree * (exn + figure Z) :=
  @get_figure COLORS Z Z_num star_layout horizontal t.

End Samples.

Module MoreSamples.

(** A category that is no key of the sample palette, on the second node. *)
Definition unknown_category : data :=
  Data 3 [Node 1 "function" None;
          Node 2 "class" (Some [Node 3 "variable" None])].

(** Integers in place of floats, printed in decimal and left unrounded. *)
Definition Z_text : Network.NumText Z := {|
  Network.num_str := pretty;
  Network.num_round5 := id
|}.

(** A layer of three rows of two columns, then a layer of three units. *)
Definition activations : list (Z * Network.ndarray Z) :=
  [(0, Network.Arr3 [[[1; 2]; [3; 4]; [5; 6]]]);
   (1, Network.Arr2 [[7; 8; 9]])].

(** Empty lists of children at two depths. *)
Definition empty_children : data :=
  Data 2 [Node 1 "function" (Some [Node 2 "variable" (Some [])])].

End MoreSamples.

(** Case analysis on the first statement of a sequence that ended
    normally. *)
Ltac exn_case x H :=
  match goal with
  | |- match ?m with inl _ => _ | inr _ => _ end = inr _ → _ =>
      destruct m as [?|x] eqn:H; [discriminate|]
  end.

(** Simplification that leaves the arithmetic as it is written. *)
Ltac arith_cbn :=
  cbn -[Z.of_nat Z.to_nat Z.add Z.sub Z.mul Z.opp Nat.min Nat.sub Nat.add
        Nat.mul].

(** ** Properties of the build traversal *)

Ltac step_simpl :=
  cbn [colors text edges tree_data master_index container fmap option_fmap
       option_map].
Ltac step_unfold :=
  unfold visit_step, record_node, mbind, M_bind, bind, edges_append,
    colors_getitem, colors_setitem, text_setitem;
  step_simpl.

Section build_properties.

Variable COLORS : gmap string string.

Lemma py_setitem_slot {A} (l : list A) (i : Z) (v : A) :
  py_setitem l i v = (λ s, <[s := v]> l) <$> py_slot (length l) i.
Proof.
  unfold py_setitem, py_slot.
  repeat case_bool_decide; reflexivity.
Qed.

Lemma py_slot_lt (len : nat) (i : Z) (s : nat) :
  py_slot len i = Some s → (s < len)%nat.
Proof.
  unfold py_slot. repeat case_bool_decide; intros [= <-]; lia.
Qed.

Lemma py_slot_Some (len : nat) (i : Z) :
  is_Some (py_slot len i) ↔ - Z.of_nat len ≤ i < Z.of_nat len.
Proof.
  unfold py_slot. repeat case_bool_decide; split;
    intros; try lia; try (by eexists); by destruct select (is_Some None).
Qed.

Lemma py_slot_nonneg (len : nat) (i : Z) :
  0 ≤ i < Z.of_nat len → py_slot len i = Some (Z.to_nat i).
Proof. intros. unfold py_slot. by rewrite bool_decide_eq_true_2. Qed.

Lemma addressable_nonneg (d : data) (i : Z) :
  0 ≤ nodes_count d →
  addressable d i ↔ - (nodes_count d + 1) ≤ i ≤ nodes_count d.
Proof. unfold addressable, slots, range_len. lia. Qed.

Lemma record_node_visit (parent : Z) (n : node) (t : Tree) :
  record_node COLORS parent n t = visit_step COLORS (visit_of parent n) t.
Proof. reflexivity. Qed.

(** The three ways a visit can end. *)
Lemma visit_step_ok (v : visit) (t : Tree) (s : nat) (c : string) :
  length (text t) = length (colors t) →
  py_slot (length (colors t)) (v_index v) = Some s →
  COLORS !! v_container v = Some c →
  visit_step COLORS v t =
    (MkTree (tree_data t) (edges t ++ [edge_of v]) (<[s := c]> (colors t))
            (<[s := format_text (v_index v) (v_container v)]> (text t)),
     inr tt).
Proof.
  intros Hlen Hs Hc. step_unfold.
  rewrite Hc. step_simpl. rewrite py_setitem_slot, Hs. step_simpl.
  rewrite py_setitem_slot, Hlen, Hs. reflexivity.
Qed.

Lemma visit_step_key_error (v : visit) (t : Tree) :
  COLORS !! v_container v = None →
  visit_step COLORS v t =
    (MkTree (tree_data t) (edges t ++ [edge_of v]) (colors t) (text t),
     inl (KeyError (v_container v))).
Proof.
  intros Hc. step_unfold. by rewrite Hc.
Qed.

Lemma visit_step_index_error (v : visit) (t : Tree) (c : string) :
  py_slot (length (colors t)) (v_index v) = None →
  COLORS !! v_container v = Some c →
  visit_step COLORS v t =
    (MkTree (tree_data t) (edges t ++ [edge_of v]) (colors t) (text t),
     inl IndexError).
Proof.
  intros Hs Hc. step_unfold.
  rewrite Hc. step_simpl. by rewrite py_setitem_slot, Hs.
Qed.

(** Running two runs of visits one after the other. *)
Lemma run_visits_app (vs1 vs2 : list visit) (t : Tree) :
  run_visits COLORS (vs1 ++ vs2) t =
    (run_visits COLORS vs1 ;; run_visits COLORS vs2) t.
Proof.
  revert t. induction vs1 as [|v vs1 IH]; intros t; [done|].
  simpl. unfold mbind, M_bind, bind in *.
  destruct (visit_step COLORS v t) as [t1 [e|[]]]; [done|].
  apply IH.
Qed.

(** [__add_child_edges] makes exactly the visits [child_visits] lists. *)
Lemma add_child_edges_visits (n : node) (t : Tree) :
  is_Some (children n) →
  add_child_edges COLORS n t = run_visits COLORS (child_visits n) t.
Proof.
  revert t. induction n as [i c|i c cs IH] using node_ind; intros t Hch.
  { by destruct Hch. }
  clear Hch. simpl. revert t.
  induction IH as [|child rest Hchild _ IHrest]; intros t; [done|].
  change (run_visits COLORS (?v :: ?vs) t)
    with ((visit_step COLORS v ;; run_visits COLORS vs) t).
  unfold mbind, M_bind, bind. rewrite record_node_visit.
  destruct (visit_step COLORS (visit_of i child) t) as [t1 [e|[]]]; [done|].
  rewrite run_visits_app. unfold mbind, M_bind, bind.
  destruct (children child) as [gs|] eqn:Hgs.
  - rewrite Hchild by eauto.
    destruct (run_visits COLORS (child_visits child) t1) as [t2 [e|[]]]; [done|].
    apply IHrest.
  - destruct child as [j d ch]; simpl in Hgs; subst ch; simpl.
    apply IHrest.
Qed.

(** The build traversal makes exactly the visits [top_visits] lists. *)
Lemma build_loop_visits (ns : list node) (t : Tree) :
  build_loop COLORS ns t = run_visits COLORS (top_visits ns) t.
Proof.
  revert t. induction ns as [|n rest IH]; intros t; [done|].
  simpl. unfold mbind, M_bind, bind. rewrite record_node_visit.
  destruct (visit_step COLORS (visit_of 0 n) t) as [t1 [e|[]]]; [done|].
  rewrite run_visits_app. unfold mbind, M_bind, bind.
  destruct (children n) as [gs|] eqn:Hgs.
  - rewrite add_child_edges_visits by eauto.
    destruct (run_visits COLORS (child_visits n) t1) as [t2 [e|[]]]; [done|].
    apply IH.
  - destruct n as [j d ch]; simpl in Hgs; subst ch; simpl. apply IH.
Qed.

Lemma build_visits (t : Tree) :
  build COLORS t = run_visits COLORS (visits (tree_data t)) t.
Proof. apply build_loop_visits. Qed.

(** A run in which every visit can write ends normally, in the state
    [after_visits] describes. *)
Lemma run_visits_ok (vs : list visit) (t : Tree)
    (ws : list (nat * (string * string))) :
  length (text t) = length (colors t) →
  mapM (write_of COLORS (length (colors t))) vs = Some ws →
  run_visits COLORS vs t = (after_visits t vs ws, inr tt).
Proof.
  revert t ws. induction vs as [|v vs IH]; intros t ws Hlen Hws.
  - injection Hws as <-. destruct t; unfold after_visits; simpl.
    by rewrite app_nil_r.
  - cbn in Hws.
    destruct (write_of COLORS (length (colors t)) v) as [[s [c x]]|] eqn:Hw;
      [|done].
    cbn in Hws.
    destruct (mapM (write_of COLORS (length (colors t))) vs) as [ws'|] eqn:Hws';
      [|done].
    injection Hws as <-.
    unfold write_of in Hw.
    destruct (py_slot (length (colors t)) (v_index v)) as [s'|] eqn:Hs; [|done].
    destruct (COLORS !! v_container v) as [c'|] eqn:Hc; [|done].
    injection Hw as -> -> <-.
    cbn [run_visits]. unfold mbind, M_bind, bind.
    rewrite (visit_step_ok v t s c) by done.
    rewrite (IH _ ws').
    + unfold after_visits; cbn. by rewrite <- app_assoc.
    + cbn. by rewrite !length_insert.
    + cbn. by rewrite length_insert.
Qed.

(** A run in which some visit cannot write raises at the first such visit:
    KeyError when its category is not a key of the palette, IndexError
    otherwise.  The edge of that visit and everything written before it
    stay on the instance. *)
Lemma run_visits_raises (vs : list visit) (t : Tree) :
  length (text t) = length (colors t) →
  mapM (write_of COLORS (length (colors t))) vs = None →
  ∃ vs1 v vs2 ws1,
    vs = vs1 ++ v :: vs2 ∧
    mapM (write_of COLORS (length (colors t))) vs1 = Some ws1 ∧
    write_of COLORS (length (colors t)) v = None ∧
    run_visits COLORS vs t =
      (let t1 := after_visits t vs1 ws1 in
       MkTree (tree_data t) (edges t1 ++ [edge_of v]) (colors t1) (text t1),
       inl (match COLORS !! v_container v with
            | None => KeyError (v_container v)
            | Some _ => IndexError
            end)).
Proof.
  revert t. induction vs as [|v vs IH]; intros t Hlen Hws; [done|].
  cbn in Hws.
  destruct (write_of COLORS (length (colors t)) v) as [[s [c x]]|] eqn:Hw.
  - cbn in Hws.
    destruct (mapM (write_of COLORS (length (colors t))) vs) as [ws'|] eqn:Hws';
      [done|].
    pose proof Hw as Hw'. unfold write_of in Hw'.
    destruct (py_slot (length (colors t)) (v_index v)) as [s'|] eqn:Hs; [|done].
    destruct (COLORS !! v_container v) as [c'|] eqn:Hc; [|done].
    injection Hw' as -> -> <-.
    set (t1 := MkTree (tree_data t) (edges t ++ [edge_of v])
                 (<[s := c]> (colors t))
                 (<[s := format_text (v_index v) (v_container v)]> (text t))).
    destruct (IH t1) as (vs1 & v' & vs2 & ws1 & -> & Hws1 & Hv' & Hrun).
    { subst t1; cbn. by rewrite !length_insert. }
    { subst t1; cbn. by rewrite length_insert. }
    subst t1. cbn [colors] in Hws1, Hv'. rewrite length_insert in Hws1, Hv'.
    exists (v :: vs1), v', vs2,
      ((s, (c, format_text (v_index v) (v_container v))) :: ws1).
    split_and!; [done| |done|].
    + cbn. rewrite Hw. cbn. by rewrite Hws1.
    + cbn [run_visits app]. unfold mbind, M_bind, bind.
      rewrite (visit_step_ok v t s c) by done.
      rewrite Hrun. unfold after_visits; cbn. by rewrite <- !app_assoc.
  - exists [], v, vs, []. split_and!; [done..|].
    cbn [run_visits]. unfold mbind, M_bind, bind.
    unfold write_of in Hw.
    destruct (COLORS !! v_container v) as [c|] eqn:Hc.
    + destruct (py_slot (length (colors t)) (v_index v)) eqn:Hs; [done|].
      rewrite (visit_step_index_error v t c) by done.
      unfold after_visits; cbn. by rewrite app_nil_r.
    + rewrite (visit_step_key_error v t) by done.
      unfold after_visits; cbn. by rewrite app_nil_r.
Qed.

(** *** Lists after a sequence of writes *)

Lemma apply_writes_cons {A} (l : list A) (w : nat * A) (ws : list (nat * A)) :
  apply_writes l (w :: ws) = apply_writes (<[w.1 := w.2]> l) ws.
Proof. reflexivity. Qed.

Lemma length_apply_writes {A} (l : list A) (ws : list (nat * A)) :
  length (apply_writes l ws) = length l.
Proof.
  revert l. induction ws as [|w ws IH]; intros l; [done|].
  rewrite apply_writes_cons, IH. apply length_insert.
Qed.

Lemma lookup_apply_writes {A} (l : list A) (ws : list (nat * A)) (k : nat) :
  (k < length l)%nat →
  apply_writes l ws !! k =
    match last_write ws k with
    | Some x => Some x
    | None => l !! k
    end.
Proof.
  revert l. induction ws as [|[j x] ws IH]; intros l Hk; [done|].
  rewrite apply_writes_cons, IH by by rewrite length_insert.
  cbn. destruct (last_write ws k); [done|].
  case_decide as Hj.
  - subst j. by apply list_lookup_insert_eq.
  - by apply list_lookup_insert_ne.
Qed.

(** Writing the same sequence a second time changes nothing. *)
Lemma apply_writes_twice {A} (l : list A) (ws : list (nat * A)) :
  apply_writes (apply_writes l ws) ws = apply_writes l ws.
Proof.
  apply list_eq; intros k.
  destruct (decide (k < length l)%nat) as [Hk|Hk].
  - rewrite (lookup_apply_writes (apply_writes l ws))
      by by rewrite length_apply_writes.
    destruct (last_write ws k) eqn:Hw; [|done].
    by rewrite lookup_apply_writes, Hw.
  - rewrite !lookup_ge_None_2; [done|..];
      rewrite !length_apply_writes; lia.
Qed.

Lemma last_write_None {A} (ws : list (nat * A)) (k : nat) :
  k ∉ ws.*1 → last_write ws k = None.
Proof.
  induction ws as [|[j x] ws IH]; [done|].
  cbn. rewrite not_elem_of_cons. intros [Hj Hk].
  rewrite IH by done. by rewrite decide_False.
Qed.

Lemma last_write_unique {A} (ws : list (nat * A)) (k : nat) (x : A) :
  NoDup ws.*1 → (k, x) ∈ ws → last_write ws k = Some x.
Proof.
  induction ws as [|[j y] ws IH]; [by rewrite elem_of_nil|].
  cbn. rewrite NoDup_cons, elem_of_cons. intros [Hj Hnd] [[= -> ->]|Hin].
  - rewrite last_write_None by done. by rewrite decide_True.
  - by rewrite IH.
Qed.

End build_properties.

(** ** The claims about the attribute builder *)

Section builder_claims.

Variable COLORS : gmap string string.

Lemma init_inv (d : data) (t : Tree) :
  init COLORS d = inr t →
  ∃ line, COLORS !! "plot-line" = Some line ∧
    t = MkTree d [] (line :: replicate (range_len (nodes_count d)) "")
                    ("root" :: replicate (range_len (nodes_count d)) "").
Proof.
  unfold init. destruct (COLORS !! "plot-line") as [line|]; [|done].
  intros [= <-]. by exists line.
Qed.

Lemma init_lengths (d : data) (t : Tree) :
  init COLORS d = inr t →
  length (colors t) = S (range_len (nodes_count d)) ∧
  length (text t) = S (range_len (nodes_count d)).
Proof.
  intros (line & _ & ->)%init_inv. cbn. by rewrite !length_replicate.
Qed.

(** C4. Scenario A: for a palette that holds the keys plot-line, function,
    variable and require, the input with nodes_count 3 and the nodes
    1 (function, with the child 2, variable) and 3 (require) builds the
    edges (0,1), (1,2), (0,3), gives node 1 the color of function and node 3
    the color of require, and labels node 2 "(2, variable)". *)
Theorem C4_scenario_A (line cf cv cr : string) :
  COLORS !! "plot-line" = Some line →
  COLORS !! "function" = Some cf →
  COLORS !! "variable" = Some cv →
  COLORS !! "require" = Some cr →
  ∃ t t',
    init COLORS Samples.scenario_A = inr t ∧
    build COLORS t = (t', inr tt) ∧
    edges t' = [(0, 1); (1, 2); (0, 3)] ∧
    colors t' !! 1%nat = Some cf ∧
    colors t' !! 3%nat = Some cr ∧
    text t' !! 2%nat = Some "(2, variable)".
Proof.
  intros Hline Hf Hv Hr.
  unfold init. rewrite Hline. eexists _, _. split; [reflexivity|].
  rewrite build_visits.
  erewrite run_visits_ok; [|done|]; cycle 1.
  { cbn. unfold write_of; cbn. rewrite Hf, Hv, Hr. reflexivity. }
  split; [reflexivity|]. cbn. split_and!; reflexivity.
Qed.

(** C10. With a palette that holds the keys plot-line, function and
    variable, the input with nodes_count 2 and the top-level nodes 1 and -2
    builds without an exception: after node 1 is visited slot 1 holds its
    color and label, and the visit of node -2 replaces both with its own,
    while slot 2 is never written. *)
Theorem C10_negative_index_overwrites (line cf cv : string) :
  COLORS !! "plot-line" = Some line →
  COLORS !! "function" = Some cf →
  COLORS !! "variable" = Some cv →
  ∃ t t1 t',
    init COLORS Samples.negative_index = inr t ∧
    build_loop COLORS [Node 1 "function" None] t = (t1, inr tt) ∧
    colors t1 !! 1%nat = Some cf ∧
    text t1 !! 1%nat = Some "(1, function)" ∧
    build_loop COLORS [Node (-2) "variable" None] t1 = (t', inr tt) ∧
    build COLORS t = (t', inr tt) ∧
    colors t' !! 1%nat = Some cv ∧
    text t' !! 1%nat = Some "(-2, variable)" ∧
    colors t' !! 2%nat = Some "" ∧
    text t' !! 2%nat = Some "".
Proof.
  intros Hline Hf Hv.
  unfold init. rewrite Hline.
  eexists _, _, _. split; [reflexivity|].
  split.
  { rewrite build_loop_visits. erewrite run_visits_ok; [reflexivity|done|].
    cbn. unfold write_of; cbn. rewrite Hf. reflexivity. }
  split; [reflexivity|]. split; [reflexivity|].
  split.
  { rewrite build_loop_visits. erewrite run_visits_ok; [reflexivity|done|].
    cbn. unfold write_of; cbn. rewrite Hv. reflexivity. }
  split.
  { rewrite build_visits. erewrite run_visits_ok; [|done|]; cycle 1.
    { cbn. unfold write_of; cbn. rewrite Hf, Hv. reflexivity. }
    reflexivity. }
  split_and!; reflexivity.
Qed.

(** The writes of a run whose indices are all in [0, len). *)
Lemma writes_in_range (len : nat) (vs : list visit) :
  Forall (λ v, 0 ≤ v_index v < Z.of_nat len) vs →
  Forall (λ v, is_Some (COLORS !! v_container v)) vs →
  ∃ ws, mapM (write_of COLORS len) vs = Some ws ∧
    Forall2 (λ v w, w.1 = Z.to_nat (v_index v) ∧
                    COLORS !! v_container v = Some w.2.1 ∧
                    w.2.2 = format_text (v_index v) (v_container v)) vs ws.
Proof.
  induction 1 as [|v vs Hv _ IH]; intros Hc.
  { exists []. split; [done|constructor]. }
  apply Forall_cons in Hc as [[c Hc] Hcs].
  destruct (IH Hcs) as (ws & Hws & Hall).
  exists ((Z.to_nat (v_index v),
           (c, format_text (v_index v) (v_container v))) :: ws).
  split.
  - apply mapM_Some_2. constructor; [|by apply mapM_Some_1].
    unfold write_of. by rewrite py_slot_nonneg, Hc by done.
  - by constructor.
Qed.

(** The label of a node is never the empty string [__init__] fills the text
    list with. *)
Lemma format_text_nonempty (i : Z) (c : string) : format_text i c ≠ "".
Proof. unfold format_text. cbn [String.append]. discriminate. Qed.

(** C3. For every valid input whose categories are all keys of the palette
    (a count that is not negative, the indices 1..nodes_count each exactly
    once) the build traversal on a fresh instance ends normally with exactly
    nodes_count edges, one into each of the indices 1..nodes_count, and every
    slot in [0, nodes_count] of colors and text holds an assigned value:
    slot 0 the line color and "root", slot k the palette color and the
    label of the input node whose index is k; no text is left empty. *)
Theorem C3_build_complete (d : data) (t : Tree) :
  init COLORS d = inr t →
  valid_input COLORS d →
  ∃ t',
    build COLORS t = (t', inr tt) ∧
    Z.of_nat (length (edges t')) = nodes_count d ∧
    (edges t').*2 ≡ₚ seqZ 1 (nodes_count d) ∧
    ∀ k, 0 ≤ k ≤ nodes_count d →
      ∃ col txt,
        colors t' !! Z.to_nat k = Some col ∧
        text t' !! Z.to_nat k = Some txt ∧
        txt ≠ "" ∧
        ((k = 0 ∧ COLORS !! "plot-line" = Some col ∧ txt = "root") ∨
         (∃ v, v ∈ visits d ∧ v_index v = k ∧
               COLORS !! v_container v = Some col ∧
               txt = format_text k (v_container v))).
Proof.
  intros Hinit (Hn & Hperm & Hknown).
  destruct (init_lengths _ _ Hinit) as [Hlc Hlt].
  destruct (init_inv _ _ Hinit) as (line & Hline & Ht).
  assert (Hrange : Forall (λ v, 1 ≤ v_index v ≤ nodes_count d) (visits d)).
  { apply Forall_forall. intros v Hv.
    assert (v_index v ∈ seqZ 1 (nodes_count d)) as Hin.
    { rewrite <- Hperm. unfold indices. by apply list_elem_of_fmap_2. }
    apply elem_of_seqZ in Hin. lia. }
  destruct (writes_in_range (length (colors t)) (visits d)) as (ws & Hws & Hall).
  { eapply Forall_impl; [exact Hrange|]. cbn. intros v Hv.
    rewrite Hlc. unfold range_len. lia. }
  { unfold known_containers, containers in Hknown.
    by rewrite Forall_fmap in Hknown. }
  assert (Hslots : ws.*1 = Z.to_nat <$> indices d).
  { unfold indices. clear -Hall.
    induction Hall as [|v w vs ws (Hw & _) _ IH]; [done|].
    cbn. by rewrite Hw, IH. }
  assert (Hnodup : NoDup ws.*1).
  { rewrite Hslots. apply NoDup_fmap_2_strong.
    - intros i j Hi Hj Hij.
      rewrite Hperm in Hi, Hj. apply elem_of_seqZ in Hi, Hj. lia.
    - rewrite Hperm. apply NoDup_seqZ. }
  exists (after_visits t (visits d) ws).
  split.
  { rewrite build_visits. subst t; cbn [tree_data].
    apply run_visits_ok; [by rewrite Hlt, Hlc|done]. }
  split.
  { unfold after_visits; cbn. subst t; cbn.
    rewrite length_fmap.
    rewrite <- (length_fmap v_index). fold (indices d).
    rewrite Hperm, length_seqZ. lia. }
  split.
  { unfold after_visits; cbn. subst t; cbn.
    rewrite <- list_fmap_compose. exact Hperm. }
  intros k Hk.
  destruct (decide (k = 0)) as [->|Hk0].
  - exists line, "root". unfold after_visits; cbn [colors text].
    rewrite !lookup_apply_writes by (rewrite ?Hlc, ?Hlt; lia).
    rewrite !last_write_None.
    + subst t. cbn. split_and!; [done|done|discriminate|]. by left.
    + rewrite <- list_fmap_compose.
      change (fst ∘ prod_map id snd) with (@fst nat (string * string)).
      rewrite Hslots. intros (i & Hi & Hin)%list_elem_of_fmap.
      rewrite Hperm in Hin. apply elem_of_seqZ in Hin. lia.
    + rewrite <- list_fmap_compose.
      change (fst ∘ prod_map id fst) with (@fst nat (string * string)).
      rewrite Hslots. intros (i & Hi & Hin)%list_elem_of_fmap.
      rewrite Hperm in Hin. apply elem_of_seqZ in Hin. lia.
  - assert (k ∈ indices d) as (v & Hvk & Hv)%list_elem_of_fmap.
    { rewrite Hperm. apply elem_of_seqZ. lia. }
    apply list_elem_of_lookup in Hv as [j Hj].
    destruct (Forall2_lookup_l _ _ _ _ _ Hall Hj) as (w & Hwj & Hw1 & Hw2 & Hw3).
    exists w.2.1, w.2.2. unfold after_visits; cbn [colors text].
    rewrite !lookup_apply_writes by (rewrite ?Hlc, ?Hlt; unfold range_len; lia).
    rewrite (last_write_unique _ _ w.2.1), (last_write_unique _ _ w.2.2).
    + split_and!; [done|done|rewrite Hw3; apply format_text_nonempty|].
      right. exists v.
      subst k. split_and!; [|done..]. by eapply list_elem_of_lookup_2.
    + rewrite <- list_fmap_compose.
      by change (fst ∘ prod_map id snd) with (@fst nat (string * string)).
    + apply list_elem_of_fmap. exists w. split.
      * destruct w as [s [c x]]; cbn in *. by subst.
      * by eapply list_elem_of_lookup_2.
    + rewrite <- list_fmap_compose.
      by change (fst ∘ prod_map id fst) with (@fst nat (string * string)).
    + apply list_elem_of_fmap. exists w. split.
      * destruct w as [s [c x]]; cbn in *. by subst.
      * by eapply list_elem_of_lookup_2.
Qed.

End builder_claims.

(** ** The claims about [get_figure] *)

Section figure_claims.

Variable COLORS : gmap string string.
Context `{NumOps num, Igraph num}.

(** An exception of the build traversal leaves [get_figure] at once. *)
Lemma get_figure_raise (horizontal : bool) (t t' : Tree) (e : exn) :
  build COLORS t = (t', inl e) →
  get_figure COLORS horizontal t = (t', inl e).
Proof.
  intros Hb. unfold get_figure, mbind, M_bind, bind. by rewrite Hb.
Qed.

(** After the build traversal [get_figure] no longer changes the instance. *)
Lemma get_figure_built (horizontal : bool) (t t' : Tree) :
  build COLORS t = (t', inr tt) →
  get_figure COLORS horizontal t =
    (t', c ← plot_coords horizontal t';
         line ← from_option inr (inl (KeyError "plot-line"))
                  (COLORS !! "plot-line");
         mret (Figure c line (colors t') (text t')
                 (if horizontal then None else Some 650)
                 (if horizontal then (40, 40, 10, 0) else (10, 10, 0, 0)))).
Proof.
  intros Hb. unfold get_figure, mbind, M_bind, bind. rewrite Hb.
  unfold get_self, lift, colors_getitem, exn_bind.
  destruct (plot_coords horizontal t') as [e|c]; [done|].
  by destruct (COLORS !! "plot-line").
Qed.

Lemma get_figure_state (horizontal : bool) (t t' : Tree)
    (r : exn + figure num) :
  get_figure COLORS horizontal t = (t', r) →
  ∃ rb, build COLORS t = (t', rb).
Proof.
  destruct (build COLORS t) as [t1 [e|[]]] eqn:Hb.
  - rewrite (get_figure_raise _ _ _ _ Hb). intros [= <- _]. eauto.
  - rewrite (get_figure_built _ _ _ Hb). intros [= <- _]. eauto.
Qed.

Lemma get_figure_inv (horizontal : bool) (t t' : Tree) (f : figure num) :
  get_figure COLORS horizontal t = (t', inr f) →
  build COLORS t = (t', inr tt) ∧
  ∃ c line,
    plot_coords horizontal t' = inr c ∧
    COLORS !! "plot-line" = Some line ∧
    f = Figure c line (colors t') (text t')
          (if horizontal then None else Some 650)
          (if horizontal then (40, 40, 10, 0) else (10, 10, 0, 0)).
Proof.
  destruct (build COLORS t) as [t1 [e|[]]] eqn:Hb.
  - by rewrite (get_figure_raise _ _ _ _ Hb).
  - rewrite (get_figure_built _ _ _ Hb).
    unfold mbind, exn_bind.
    destruct (plot_coords horizontal t1) as [e|c] eqn:Hc; [done|].
    destruct (COLORS !! "plot-line") as [line|]; [|done].
    cbn. intros [= <- <-]. split; [done|]. by eexists _, _.
Qed.

(** A build that ends normally wrote what [after_visits] describes. *)
Lemma build_inv (t t' : Tree) :
  length (text t) = length (colors t) →
  build COLORS t = (t', inr tt) →
  ∃ ws, mapM (write_of COLORS (length (colors t))) (visits (tree_data t))
          = Some ws ∧
        t' = after_visits t (visits (tree_data t)) ws.
Proof.
  intros Hlen. rewrite build_visits.
  destruct (mapM (write_of COLORS (length (colors t))) (visits (tree_data t)))
    as [ws|] eqn:Hws.
  - rewrite (run_visits_ok _ _ _ ws) by done. intros [= <-]. eauto.
  - destruct (run_visits_raises COLORS _ t Hlen Hws)
      as (? & ? & ? & ? & _ & _ & _ & ->).
    done.
Qed.

(** The two orientations fail together: [orient] cannot raise. *)
Lemma plot_coords_inv (horizontal : bool) (t : Tree) (c : coords num) :
  plot_coords horizontal t = inr c →
  ∃ raw, layout_coords t = inr raw ∧ c = orient horizontal raw.
Proof.
  unfold plot_coords, mbind, exn_bind.
  destruct (layout_coords t) as [e|raw]; [done|].
  intros [= <-]. eauto.
Qed.

(** C6. For every instance on which [get_figure] returns a figure in
    horizontal mode, it returns one in vertical mode as well, from the same
    coordinates [raw] of lines 138-157: the vertical node coordinates are the
    sign flip of [raw], and the horizontal ones are [raw] with x and y
    exchanged; the edge coordinates are exchanged likewise. *)
Theorem C6_horizontal_is_axis_swap (t th : Tree) (fh : figure num) :
  get_figure COLORS true t = (th, inr fh) →
  ∃ raw fv,
    layout_coords th = inr raw ∧
    get_figure COLORS false t = (th, inr fv) ∧
    nodes_x (fig_coords fv) = num_neg <$> nodes_x raw ∧
    nodes_y (fig_coords fv) = num_neg <$> nodes_y raw ∧
    nodes_x (fig_coords fh) = nodes_y raw ∧
    nodes_y (fig_coords fh) = nodes_x raw ∧
    edges_x (fig_coords fh) = edges_y raw ∧
    edges_y (fig_coords fh) = edges_x raw.
Proof.
  intros (Hb & ch & line & Hch & Hline & ->)%get_figure_inv.
  apply plot_coords_inv in Hch as (raw & Hraw & ->).
  exists raw. eexists. split; [done|]. split.
  { rewrite (get_figure_built _ _ _ Hb).
    unfold plot_coords. rewrite Hraw, Hline. reflexivity. }
  by split_and!.
Qed.

(** C9. For every instance built from an input in which no index is 0 or
    minus the length of the color list (the two indices that address
    slot 0), the color [get_figure] gives the marker of the synthetic root
    is the color it gives the edge lines: both are the palette entry
    plot-line. *)
Theorem C9_root_color_is_line_color (d : data) (horizontal : bool)
    (t t' : Tree) (f : figure num) :
  init COLORS d = inr t →
  Forall (λ i, i ≠ 0 ∧ i ≠ - slots d) (indices d) →
  get_figure COLORS horizontal t = (t', inr f) →
  fig_marker_color f !! 0%nat = Some (fig_line_color f) ∧
  COLORS !! "plot-line" = Some (fig_line_color f).
Proof.
  intros Hinit Hidx (Hb & c & line & _ & Hline & ->)%get_figure_inv.
  destruct (init_lengths _ _ _ Hinit) as [Hlc Hlt].
  destruct (init_inv _ _ _ Hinit) as (line' & Hline' & Ht).
  rewrite Hline in Hline'. injection Hline' as <-.
  apply build_inv in Hb as (ws & Hws & ->); [|by rewrite Hlt, Hlc].
  split; [|done]. cbn [fig_marker_color fig_line_color after_visits colors].
  rewrite lookup_apply_writes by (rewrite Hlc; lia).
  rewrite last_write_None; [by subst t|].
  rewrite <- list_fmap_compose.
  change (fst ∘ prod_map id fst) with (@fst nat (string * string)).
  apply mapM_Some_1 in Hws.
  assert (tree_data t = d) as Hd by by subst t.
  rewrite Hd, Hlc in Hws. unfold indices in Hidx.
  rewrite Forall_fmap in Hidx. clear -Hidx Hws.
  revert Hidx Hws. generalize (visits d) as vs. intros vs Hidx Hws.
  induction Hws as [|v w vs ws Hw _ IH]; [apply not_elem_of_nil|].
  apply Forall_cons in Hidx as [[Hv0 Hvs] Hidx].
  cbn. rewrite not_elem_of_cons. split; [|by apply IH].
  unfold write_of in Hw. unfold slots in Hvs.
  destruct (py_slot _ _) as [s|] eqn:Hs; [|done].
  destruct (COLORS !! _); [|done]. injection Hw as <-. cbn.
  unfold py_slot in Hs. repeat case_bool_decide; simplify_eq; lia.
Qed.

(** C1. With every category a key of the palette, the build traversal on a
    fresh instance raises exactly when some index of the input addresses no
    entry of the presized lists, that is lies outside [-len, len - 1] for
    their length len = 1 + max(nodes_count, 0) (outside
    [-(nodes_count+1), nodes_count] when nodes_count is not negative, see
    [addressable_nonneg]); the exception is then IndexError,
    [get_figure] returns no figure, and the edge list of the instance holds
    the edges up to and including the first such node.  When every index
    addresses an entry the traversal ends normally, whether or not indices
    repeat or their number matches nodes_count. *)
Theorem C1_build_raises_IndexError (d : data) (horizontal : bool) (t : Tree) :
  init COLORS d = inr t →
  known_containers COLORS d →
  (Exists (λ i, ¬ addressable d i) (indices d) →
     ∃ t' vs1 v vs2,
       build COLORS t = (t', inl IndexError) ∧
       get_figure COLORS horizontal t = (t', inl IndexError) ∧
       visits d = vs1 ++ v :: vs2 ∧
       Forall (addressable d) (v_index <$> vs1) ∧
       ¬ addressable d (v_index v) ∧
       edges t' = edge_of <$> (vs1 ++ [v])) ∧
  (Forall (addressable d) (indices d) →
     ∃ t', build COLORS t = (t', inr tt)).
Proof.
  intros Hinit Hknown.
  destruct (init_lengths _ _ _ Hinit) as [Hlc Hlt].
  destruct (init_inv _ _ _ Hinit) as (line & Hline & Ht).
  assert (Hlen : length (text t) = length (colors t)) by by rewrite Hlt, Hlc.
  assert (Hd : tree_data t = d) by by subst t.
  assert (Hslot : ∀ i, is_Some (py_slot (length (colors t)) i) ↔ addressable d i).
  { intros i. rewrite py_slot_Some, Hlc. reflexivity. }
  unfold known_containers, containers in Hknown. rewrite Forall_fmap in Hknown.
  assert (Hwrite : ∀ v, v ∈ visits d →
            is_Some (write_of COLORS (length (colors t)) v)
            ↔ addressable d (v_index v)).
  { intros v Hv. rewrite <- Hslot. unfold write_of.
    rewrite Forall_forall in Hknown. destruct (Hknown v Hv) as [c Hc].
    cbn in Hc. rewrite Hc.
    destruct (py_slot _ _); cbn; split; intros [? ?]; by eauto. }
  split.
  - intros Hex. unfold indices in Hex. rewrite Exists_fmap in Hex.
    destruct (run_visits_raises COLORS (visits d) t Hlen)
      as (vs1 & v & vs2 & ws1 & Hvs & Hws1 & Hv & Hrun).
    { apply mapM_None_2. eapply Exists_impl; [exact Hex|].
      cbn. intros v Hv.
      destruct (write_of COLORS (length (colors t)) v) eqn:Hw; [|done].
      destruct Hv. rewrite <- Hslot. unfold write_of in Hw.
      destruct (py_slot _ _); [by eauto|done]. }
    assert (v ∈ visits d) as Hvin.
    { rewrite Hvs, elem_of_app, elem_of_cons. auto. }
    assert (COLORS !! v_container v ≠ None) as Hc.
    { rewrite Forall_forall in Hknown.
      destruct (Hknown v Hvin) as [c Hc]. cbn in Hc. by rewrite Hc. }
    destruct (COLORS !! v_container v) as [c|] eqn:Hcv; [|done].
    eexists _, vs1, v, vs2.
    rewrite build_visits, Hd, Hrun.
    split; [reflexivity|]. split.
    { apply get_figure_raise. rewrite build_visits, Hd, Hrun. by rewrite Hd. }
    split; [done|]. split.
    { rewrite Forall_fmap. apply Forall_forall. intros u Hu.
      apply Hwrite; [rewrite Hvs, elem_of_app; auto|].
      apply mapM_Some_1 in Hws1.
      apply list_elem_of_lookup in Hu as [j Hj].
      destruct (Forall2_lookup_l _ _ _ _ _ Hws1 Hj) as (w & _ & Hw). eauto. }
    split.
    { rewrite <- Hwrite by done. rewrite Hv. by intros [? ?]. }
    cbn. subst t. cbn. by rewrite fmap_app.
  - intros Hall. unfold indices in Hall. rewrite Forall_fmap in Hall.
    destruct (mapM (write_of COLORS (length (colors t))) (visits d))
      as [ws|] eqn:Hws.
    + eexists. rewrite build_visits, Hd. by apply run_visits_ok.
    + apply mapM_None_1, Exists_exists in Hws as (v & Hvin & Hv).
      rewrite Forall_forall in Hall.
      apply Hwrite in Hvin as Hiff. specialize (Hall v Hvin). cbn in Hall.
      apply Hiff in Hall as [? Hall]. congruence.
Qed.

(** C2. On an instance that [get_figure] has built once, a second call of
    [get_figure], in either orientation, appends every edge to the edge list
    a second time; the color and text lists are left as they were. *)
Theorem C2_second_get_figure_repeats_edges (d : data) (h1 h2 : bool)
    (t0 t1 t2 : Tree) (f1 : figure num) (r2 : exn + figure num) :
  init COLORS d = inr t0 →
  get_figure COLORS h1 t0 = (t1, inr f1) →
  get_figure COLORS h2 t1 = (t2, r2) →
  edges t2 = edges t1 ++ edges t1 ∧
  length (edges t2) = (2 * length (visits d))%nat ∧
  colors t2 = colors t1 ∧
  text t2 = text t1.
Proof.
  intros Hinit [Hb1 _]%get_figure_inv [rb Hb2]%get_figure_state.
  destruct (init_lengths _ _ _ Hinit) as [Hlc Hlt].
  destruct (init_inv _ _ _ Hinit) as (line & Hline & Ht).
  assert (Hd : tree_data t0 = d) by by subst t0.
  assert (He : edges t0 = []) by by subst t0.
  apply build_inv in Hb1 as (ws & Hws & ->); [|by rewrite Hlt, Hlc].
  rewrite Hd in *.
  rewrite build_visits in Hb2. cbn [tree_data after_visits] in Hb2.
  rewrite Hd in Hb2.
  rewrite (run_visits_ok COLORS _ _ ws) in Hb2.
  - injection Hb2 as <- _. unfold after_visits; cbn.
    rewrite He, !apply_writes_twice. cbn.
    split_and!; [done| |done..].
    rewrite length_app, !length_fmap. lia.
  - cbn. rewrite !length_apply_writes. by rewrite Hlt, Hlc.
  - cbn. by rewrite length_apply_writes.
Qed.

End figure_claims.

(** ** The claims on the sample inputs *)

(** Scenario A is a valid input for the sample palette. *)
Lemma scenario_A_valid : valid_input Samples.COLORS Samples.scenario_A.
Proof.
  split; [done|]. split; [reflexivity|].
  unfold known_containers. repeat constructor; by eexists.
Defined.

(** Scenario A, built and checked against C3. *)
Lemma C3_witness :
  init Samples.COLORS Samples.scenario_A
    = inr (Samples.tree Samples.scenario_A) ∧
  valid_input Samples.COLORS Samples.scenario_A ∧
  ∃ t',
    build Samples.COLORS (Samples.tree Samples.scenario_A) = (t', inr tt) ∧
    Z.of_nat (length (edges t')) = 3 ∧
    (edges t').*2 ≡ₚ [1; 2; 3] ∧
    ∀ k, 0 ≤ k ≤ 3 →
      ∃ col txt,
        colors t' !! Z.to_nat k = Some col ∧
        text t' !! Z.to_nat k = Some txt ∧
        txt ≠ "" ∧
        ((k = 0 ∧ Samples.COLORS !! "plot-line" = Some col ∧ txt = "root") ∨
         (∃ v, v ∈ visits Samples.scenario_A ∧ v_index v = k ∧
               Samples.COLORS !! v_container v = Some col ∧
               txt = format_text k (v_container v))).
Proof.
  split; [reflexivity|]. split; [exact scenario_A_valid|].
  exact (C3_build_complete Samples.COLORS Samples.scenario_A
           (Samples.tree Samples.scenario_A) eq_refl scenario_A_valid).
Defined.

(** An input that covers the indices 1..3 exactly once and names a category
    the palette does not hold: the build raises KeyError at the second
    node, with two of the three edges appended and the slots 2 and 3 of
    colors and text still empty. *)
Lemma C3_counterexample :
  0 ≤ nodes_count MoreSamples.unknown_category ∧
  indices MoreSamples.unknown_category
    ≡ₚ seqZ 1 (nodes_count MoreSamples.unknown_category) ∧
  build Samples.COLORS (Samples.tree MoreSamples.unknown_category) =
    (MkTree MoreSamples.unknown_category [(0, 1); (0, 2)]
            ["#888888"; "#0000ff"; ""; ""]
            ["root"; "(1, function)"; ""; ""],
     inl (KeyError "class")).
Proof.
  split; [done|]. split; [reflexivity|]. vm_compute. reflexivity.
Qed.

(** Scenario A with the sample palette. *)
Lemma C4_witness :
  ∃ t t',
    init Samples.COLORS Samples.scenario_A = inr t ∧
    build Samples.COLORS t = (t', inr tt) ∧
    edges t' = [(0, 1); (1, 2); (0, 3)] ∧
    colors t' !! 1%nat = Some "#0000ff" ∧
    colors t' !! 3%nat = Some "#ff0000" ∧
    text t' !! 2%nat = Some "(2, variable)".
Proof.
  exact (C4_scenario_A Samples.COLORS "#888888" "#0000ff" "#00ff00" "#ff0000"
           eq_refl eq_refl eq_refl eq_refl).
Defined.

(** The negative index with the sample palette. *)
Lemma C10_witness :
  ∃ t t1 t',
    init Samples.COLORS Samples.negative_index = inr t ∧
    build_loop Samples.COLORS [Node 1 "function" None] t = (t1, inr tt) ∧
    colors t1 !! 1%nat = Some "#0000ff" ∧
    text t1 !! 1%nat = Some "(1, function)" ∧
    build_loop Samples.COLORS [Node (-2) "variable" None] t1 = (t', inr tt) ∧
    build Samples.COLORS t = (t', inr tt) ∧
    colors t' !! 1%nat = Some "#00ff00" ∧
    text t' !! 1%nat = Some "(-2, variable)" ∧
    colors t' !! 2%nat = Some "" ∧
    text t' !! 2%nat = Some "".
Proof.
  exact (C10_negative_index_overwrites Samples.COLORS
           "#888888" "#0000ff" "#00ff00" eq_refl eq_refl eq_refl).
Defined.

(** Both orientations of scenario A under the stand-in layout. *)
Lemma C6_witness :
  ∃ th fh raw fv,
    Samples.figure_of true (Samples.tree Samples.scenario_A) = (th, inr fh) ∧
    @layout_coords Z Samples.Z_num Samples.star_layout th = inr raw ∧
    Samples.figure_of false (Samples.tree Samples.scenario_A) = (th, inr fv) ∧
    nodes_x raw = [2; 1; 1; 1] ∧
    nodes_y raw = [0; 1; 2; 3] ∧
    nodes_x (fig_coords fv) = [-2; -1; -1; -1] ∧
    nodes_y (fig_coords fv) = [0; -1; -2; -3] ∧
    nodes_x (fig_coords fh) = [0; 1; 2; 3] ∧
    nodes_y (fig_coords fh) = [2; 1; 1; 1].
Proof.
  set (t := Samples.tree Samples.scenario_A).
  let r := eval vm_compute in (Samples.figure_of true t) in
  match r with
  | (?th, inr ?fh) =>
      assert (Hh : Samples.figure_of true t = (th, inr fh))
        by (vm_compute; reflexivity);
      exists th, fh
  end.
  destruct (@C6_horizontal_is_axis_swap Samples.COLORS Z Samples.Z_num
              Samples.star_layout t _ _ Hh)
    as (raw & fv & Hraw & Hv & Hvx & Hvy & Hhx & Hhy & _).
  exists raw, fv. split; [exact Hh|]. split; [exact Hraw|].
  split; [exact Hv|].
  vm_compute in Hraw. injection Hraw as <-.
  split; [reflexivity|]. split; [reflexivity|].
  split; [exact Hvx|]. split; [exact Hvy|]. split; [exact Hhx|exact Hhy].
Defined.

(** The root marker of scenario A has the color of the edge lines. *)
Lemma C9_counterexample :
  ∃ t' f,
    Samples.figure_of false (Samples.tree Samples.scenario_A) = (t', inr f) ∧
    fig_marker_color f !! 0%nat = Some "#888888" ∧
    fig_line_color f = "#888888" ∧
    ¬ (fig_marker_color f !! 0%nat ≠ Some (fig_line_color f)).
Proof.
  eexists _, _. split; [vm_compute; reflexivity|].
  split; [reflexivity|]. split; [reflexivity|].
  intros Hne. by apply Hne.
Qed.

Lemma C9_witness :
  Forall (λ i, i ≠ 0 ∧ i ≠ - slots Samples.scenario_A)
         (indices Samples.scenario_A) ∧
  ∃ t' f,
    Samples.figure_of true (Samples.tree Samples.scenario_A) = (t', inr f) ∧
    fig_marker_color f !! 0%nat = Some (fig_line_color f) ∧
    Samples.COLORS !! "plot-line" = Some (fig_line_color f).
Proof.
  assert (Hidx : Forall (λ i, i ≠ 0 ∧ i ≠ - slots Samples.scenario_A)
                        (indices Samples.scenario_A)).
  { repeat constructor; vm_compute; discriminate. }
  split; [exact Hidx|].
  set (t := Samples.tree Samples.scenario_A).
  let r := eval vm_compute in (Samples.figure_of true t) in
  match r with
  | (?t', inr ?f) =>
      assert (Hf : Samples.figure_of true t = (t', inr f))
        by (vm_compute; reflexivity);
      exists t', f
  end.
  split; [exact Hf|].
  exact (@C9_root_color_is_line_color Samples.COLORS Z Samples.Z_num
           Samples.star_layout Samples.scenario_A true t _ _ eq_refl Hidx Hf).
Defined.

(** What the build does on inputs the contract of C1 would reject: a
    repeated index, fewer nodes than declared and the index 0 are built
    without an exception; the third index of scenario D raises IndexError
    after three edges were appended and two nodes were written. *)
Lemma C1_counterexample :
  (¬ NoDup (indices Samples.duplicated) ∧
   build Samples.COLORS (Samples.tree Samples.duplicated) =
     (MkTree Samples.duplicated [(0, 1); (0, 1)]
             ["#888888"; "#00ff00"; ""] ["root"; "(1, variable)"; ""],
      inr tt)) ∧
  (Z.of_nat (length (remove_dups (indices Samples.undercount)))
     ≠ nodes_count Samples.undercount ∧
   build Samples.COLORS (Samples.tree Samples.undercount) =
     (MkTree Samples.undercount [(0, 1)]
             ["#888888"; "#0000ff"; ""; ""] ["root"; "(1, function)"; ""; ""],
      inr tt)) ∧
  (¬ (1 ≤ 0 ≤ nodes_count Samples.zero_index) ∧
   0 ∈ indices Samples.zero_index ∧
   build Samples.COLORS (Samples.tree Samples.zero_index) =
     (MkTree Samples.zero_index [(0, 0)]
             ["#0000ff"; ""] ["(0, function)"; ""],
      inr tt)) ∧
  (3 ∈ indices Samples.scenario_D ∧
   ¬ (1 ≤ 3 ≤ nodes_count Samples.scenario_D) ∧
   build Samples.COLORS (Samples.tree Samples.scenario_D) =
     (MkTree Samples.scenario_D [(0, 1); (0, 2); (0, 3)]
             ["#888888"; "#0000ff"; "#00ff00"]
             ["root"; "(1, function)"; "(2, variable)"],
      inl IndexError)).
Proof.
  split_and!; try (vm_compute; reflexivity); try (cbn; lia).
  - change (indices Samples.duplicated) with [1; 1].
    intros [Hnin _]%NoDup_cons. apply Hnin. left.
  - vm_compute. discriminate.
  - change (indices Samples.zero_index) with [0]. left.
  - change (indices Samples.scenario_D) with [1; 2; 3]. do 2 right. left.
Qed.

Lemma C1_witness :
  known_containers Samples.COLORS Samples.scenario_D ∧
  Exists (λ i, ¬ addressable Samples.scenario_D i)
         (indices Samples.scenario_D) ∧
  Forall (addressable Samples.negative_index)
         (indices Samples.negative_index) ∧
  (∃ t' vs1 v vs2,
     build Samples.COLORS (Samples.tree Samples.scenario_D)
       = (t', inl IndexError) ∧
     Samples.figure_of false (Samples.tree Samples.scenario_D)
       = (t', inl IndexError) ∧
     visits Samples.scenario_D = vs1 ++ v :: vs2 ∧
     Forall (addressable Samples.scenario_D) (v_index <$> vs1) ∧
     ¬ addressable Samples.scenario_D (v_index v) ∧
     edges t' = edge_of <$> (vs1 ++ [v])) ∧
  (∃ t', build Samples.COLORS (Samples.tree Samples.negative_index)
           = (t', inr tt)).
Proof.
  assert (HkD : known_containers Samples.COLORS Samples.scenario_D).
  { unfold known_containers. repeat constructor; by eexists. }
  assert (HkN : known_containers Samples.COLORS Samples.negative_index).
  { unfold known_containers. repeat constructor; by eexists. }
  assert (Hex : Exists (λ i, ¬ addressable Samples.scenario_D i)
                       (indices Samples.scenario_D)).
  { do 2 apply Exists_cons_tl. apply Exists_cons_hd.
    unfold addressable. vm_compute. intros [_ Hlt]. discriminate. }
  assert (Hall : Forall (addressable Samples.negative_index)
                        (indices Samples.negative_index)).
  { unfold addressable. repeat constructor; vm_compute; discriminate. }
  split; [exact HkD|]. split; [exact Hex|]. split; [exact Hall|].
  split.
  - exact (proj1 (@C1_build_raises_IndexError Samples.COLORS Z Samples.Z_num
                    Samples.star_layout Samples.scenario_D false
                    (Samples.tree Samples.scenario_D) eq_refl HkD) Hex).
  - exact (proj2 (@C1_build_raises_IndexError Samples.COLORS Z Samples.Z_num
                    Samples.star_layout Samples.negative_index false
                    (Samples.tree Samples.negative_index) eq_refl HkN) Hall).
Defined.

(** Scenario A drawn twice: three edges after the first call, six after the
    second. *)
Lemma C2_witness :
  ∃ t1 f1 t2 r2,
    Samples.figure_of false (Samples.tree Samples.scenario_A) = (t1, inr f1) ∧
    Samples.figure_of true t1 = (t2, r2) ∧
    edges t1 = [(0, 1); (1, 2); (0, 3)] ∧
    edges t2 = [(0, 1); (1, 2); (0, 3); (0, 1); (1, 2); (0, 3)] ∧
    edges t2 = edges t1 ++ edges t1 ∧
    length (edges t2) = (2 * length (visits Samples.scenario_A))%nat ∧
    colors t2 = colors t1 ∧
    text t2 = text t1.
Proof.
  set (t := Samples.tree Samples.scenario_A).
  let r1 := eval vm_compute in (Samples.figure_of false t) in
  match r1 with
  | (?t1, inr ?f1) =>
      let r := eval vm_compute in (Samples.figure_of true t1) in
      match r with
      | (?t2, ?r2) =>
          assert (H1 : Samples.figure_of false t = (t1, inr f1))
            by (vm_compute; reflexivity);
          assert (H2 : Samples.figure_of true t1 = (t2, r2))
            by (vm_compute; reflexivity);
          exists t1, f1, t2, r2
      end
  end.
  split; [exact H1|]. split; [exact H2|].
  split; [reflexivity|]. split; [reflexivity|].
  exact (@C2_second_get_figure_repeats_edges Samples.COLORS Z Samples.Z_num
           Samples.star_layout Samples.scenario_A false true t _ _ _ _
           eq_refl H1 H2).
Defined.

(** ** Further properties of the build traversal *)

Section build_invariants.

Variable COLORS : gmap string string.

Lemma py_setitem_length {A} (l l' : list A) (i : Z) (v : A) :
  py_setitem l i v = Some l' → length l' = length l.
Proof.
  rewrite py_setitem_slot. destruct (py_slot _ _); [|done].
  intros [= <-]. apply length_insert.
Qed.

(** Whatever its outcome, a visit appends its edge and keeps the data and
    the lengths of the two attribute lists. *)
Lemma visit_step_frame (v : visit) (t : Tree) :
  tree_data (visit_step COLORS v t).1 = tree_data t ∧
  edges (visit_step COLORS v t).1 = edges t ++ [edge_of v] ∧
  length (colors (visit_step COLORS v t).1) = length (colors t) ∧
  length (text (visit_step COLORS v t).1) = length (text t).
Proof.
  step_unfold. destruct (COLORS !! v_container v) as [c|]; [|done].
  step_simpl.
  destruct (py_setitem (colors t) (v_index v) c) as [cs|] eqn:Hcs; [|done].
  step_simpl. apply py_setitem_length in Hcs.
  destruct (py_setitem (text t) (v_index v) _) as [ts|] eqn:Hts; [|done].
  apply py_setitem_length in Hts. done.
Qed.

Lemma run_visits_frame (vs : list visit) (t : Tree) :
  tree_data (run_visits COLORS vs t).1 = tree_data t ∧
  length (colors (run_visits COLORS vs t).1) = length (colors t) ∧
  length (text (run_visits COLORS vs t).1) = length (text t) ∧
  ∃ k, (k ≤ length vs)%nat ∧
    edges (run_visits COLORS vs t).1 = edges t ++ (edge_of <$> take k vs) ∧
    match (run_visits COLORS vs t).2 with
    | inr _ => k = length vs
    | inl _ => (0 < k)%nat
    end.
Proof.
  revert t. induction vs as [|v vs IH]; intros t.
  { cbn. split_and!; [done..|]. exists 0%nat. by rewrite app_nil_r. }
  cbn [run_visits]. unfold mbind, M_bind, bind.
  destruct (visit_step_frame v t) as (Hd & He & Hc & Ht).
  destruct (visit_step COLORS v t) as [t1 [e|[]]]; cbn in Hd, He, Hc, Ht.
  - cbn. split_and!; [done..|]. exists 1%nat. cbn. rewrite take_0.
    split_and!; [lia|done|lia].
  - destruct (IH t1) as (Hd' & Hc' & Ht' & k & Hk & He' & Hr).
    rewrite Hd', Hc', Ht', He', He.
    split_and!; [done..|]. exists (S k). cbn.
    split_and!; [lia|by rewrite <- app_assoc|].
    destruct (run_visits COLORS vs t1).2; lia.
Qed.

(** The same for the whole build traversal. *)
Lemma build_frame (t : Tree) :
  tree_data (build COLORS t).1 = tree_data t ∧
  length (colors (build COLORS t).1) = length (colors t) ∧
  length (text (build COLORS t).1) = length (text t) ∧
  ∃ k, (k ≤ length (visits (tree_data t)))%nat ∧
    edges (build COLORS t).1
      = edges t ++ (edge_of <$> take k (visits (tree_data t))) ∧
    match (build COLORS t).2 with
    | inr _ => k = length (visits (tree_data t))
    | inl _ => (0 < k)%nat
    end.
Proof. rewrite build_visits. apply run_visits_frame. Qed.

(** X1. Whether it ends normally or raises, the build traversal never
    changes the data, never changes the length of the color list or of the
    text list, and only appends to the edge list: the edges of the first
    [k] nodes in traversal order, all of them when it ends normally and at
    least one when it raises. *)
Theorem X1_build_frame_invariant (t : Tree) :
  tree_data (build COLORS t).1 = tree_data t ∧
  length (colors (build COLORS t).1) = length (colors t) ∧
  length (text (build COLORS t).1) = length (text t) ∧
  ∃ k, (k ≤ length (visits (tree_data t)))%nat ∧
    edges (build COLORS t).1
      = edges t ++ (edge_of <$> take k (visits (tree_data t))) ∧
    match (build COLORS t).2 with
    | inr _ => k = length (visits (tree_data t))
    | inl _ => (0 < k)%nat
    end.
Proof. rewrite build_visits. apply run_visits_frame. Qed.

End build_invariants.

Section build_outcomes.

Variable COLORS : gmap string string.

(** A visit can write when its index addresses a slot and its category is a
    key of the palette. *)
Lemma write_of_is_Some (len : nat) (v : visit) :
  is_Some (write_of COLORS len v) ↔
  is_Some (py_slot len (v_index v)) ∧ is_Some (COLORS !! v_container v).
Proof.
  unfold write_of.
  destruct (py_slot len (v_index v)), (COLORS !! v_container v); cbn;
    split; try (intros [[? ?] [? ?]]); try (intros [? ?]); by eauto.
Qed.

Lemma init_slots (d : data) (t : Tree) :
  init COLORS d = inr t →
  length (colors t) = Z.to_nat (slots d) ∧
  length (text t) = Z.to_nat (slots d) ∧
  tree_data t = d ∧ edges t = [].
Proof.
  intros Hinit. destruct (init_lengths _ _ _ Hinit) as [Hc Ht].
  destruct (init_inv _ _ _ Hinit) as (line & _ & ->).
  unfold slots. rewrite Nat2Z.id. by split_and!.
Qed.

(** X2. On a fresh instance the first node, in traversal order, whose index
    addresses no slot or whose category is no key of the palette ends the
    build: with KeyError of the category when the category is unknown, even
    if the index is out of range too, and with IndexError otherwise.  The
    edges up to and including that node stay on the instance. *)
Theorem X2_build_first_failure (d : data) (t : Tree)
    (vs1 vs2 : list visit) (v : visit) :
  init COLORS d = inr t →
  visits d = vs1 ++ v :: vs2 →
  Forall (λ u, addressable d (v_index u) ∧ is_Some (COLORS !! v_container u))
         vs1 →
  ¬ (addressable d (v_index v) ∧ is_Some (COLORS !! v_container v)) →
  ∃ t',
    build COLORS t =
      (t', inl (match COLORS !! v_container v with
                | None => KeyError (v_container v)
                | Some _ => IndexError
                end)) ∧
    edges t' = edge_of <$> (vs1 ++ [v]).
Proof.
  intros Hinit Hvs Hok Hbad.
  destruct (init_slots _ _ Hinit) as (Hlc & Hlt & Hd & He).
  assert (Hslot : ∀ i, is_Some (py_slot (Z.to_nat (slots d)) i) ↔ addressable d i).
  { intros i. rewrite py_slot_Some. unfold addressable, slots.
    rewrite Nat2Z.id. reflexivity. }
  assert (is_Some (mapM (write_of COLORS (Z.to_nat (slots d))) vs1))
    as [ws1 Hws1].
  { apply mapM_is_Some. eapply Forall_impl; [exact Hok|].
    cbn. intros u [Hu1 Hu2]. apply write_of_is_Some. by rewrite Hslot. }
  assert (write_of COLORS (Z.to_nat (slots d)) v = None) as Hv.
  { apply eq_None_not_Some. rewrite write_of_is_Some, Hslot. exact Hbad. }
  rewrite build_visits, Hd, Hvs, run_visits_app.
  unfold mbind, M_bind, bind.
  rewrite (run_visits_ok COLORS vs1 t ws1) by (by rewrite ?Hlt, Hlc).
  cbn [run_visits]. unfold mbind, M_bind, bind.
  set (t1 := after_visits t vs1 ws1).
  assert (length (colors t1) = Z.to_nat (slots d)) as Hlc1.
  { subst t1. cbn. by rewrite length_apply_writes. }
  destruct (COLORS !! v_container v) as [c|] eqn:Hc.
  - rewrite (visit_step_index_error COLORS v t1 c); [|..|done].
    + eexists. split; [reflexivity|]. cbn. by rewrite He, fmap_app.
    + rewrite Hlc1. unfold write_of in Hv. rewrite Hc in Hv.
      by destruct (py_slot _ _).
  - rewrite (visit_step_key_error COLORS v t1) by done.
    eexists. split; [reflexivity|]. cbn. by rewrite He, fmap_app.
Qed.

Lemma last_write_app {A} (ws1 ws2 : list (nat * A)) (k : nat) :
  last_write (ws1 ++ ws2) k =
    match last_write ws2 k with
    | Some x => Some x
    | None => last_write ws1 k
    end.
Proof.
  induction ws1 as [|w ws1 IH]; cbn.
  - by destruct (last_write ws2 k).
  - rewrite IH. by destruct (last_write ws2 k).
Qed.

(** The state a normal build of a fresh instance ends in. *)
Lemma build_fresh_inv (d : data) (t t' : Tree) :
  init COLORS d = inr t →
  build COLORS t = (t', inr tt) →
  ∃ ws,
    Forall2 (λ v w, write_of COLORS (Z.to_nat (slots d)) v = Some w)
            (visits d) ws ∧
    t' = after_visits t (visits d) ws.
Proof.
  intros Hinit Hb.
  destruct (init_slots _ _ Hinit) as (Hlc & Hlt & Hd & He).
  apply build_inv in Hb as (ws & Hws & ->); [|by rewrite Hlt, Hlc].
  rewrite Hd, Hlc in Hws. rewrite Hd. exists ws. split; [|done].
  by apply mapM_Some_1.
Qed.

(** X3. When several nodes address the same slot, a build that ends
    normally leaves the color and the label of the last of them in traversal
    order in that slot. *)
Theorem X3_build_last_writer_wins (d : data) (t t' : Tree)
    (vs1 vs2 : list visit) (v : visit) (s : nat) :
  init COLORS d = inr t →
  build COLORS t = (t', inr tt) →
  visits d = vs1 ++ v :: vs2 →
  py_slot (Z.to_nat (slots d)) (v_index v) = Some s →
  Forall (λ u, py_slot (Z.to_nat (slots d)) (v_index u) ≠ Some s) vs2 →
  ∃ c, COLORS !! v_container v = Some c ∧
       colors t' !! s = Some c ∧
       text t' !! s = Some (format_text (v_index v) (v_container v)).
Proof.
  intros Hinit Hb Hvs Hs Hlater.
  destruct (init_slots _ _ Hinit) as (Hlc & Hlt & Hd & He).
  destruct (build_fresh_inv _ _ _ Hinit Hb) as (ws & Hws & ->).
  rewrite Hvs in Hws.
  apply Forall2_app_inv_l in Hws as (ws1 & ws' & Hws1 & Hws' & ->).
  apply Forall2_cons_inv_l in Hws' as (w & ws2 & Hw & Hws2 & ->).
  unfold write_of in Hw. rewrite Hs in Hw.
  destruct (COLORS !! v_container v) as [c|] eqn:Hc; [|done].
  injection Hw as <-. exists c. split; [done|].
  assert (Hnone : s ∉ ws2.*1).
  { clear -Hws2 Hlater.
    induction Hws2 as [|u w vs2 ws2 Hu _ IH]; [apply not_elem_of_nil|].
    apply Forall_cons in Hlater as [Hus Hlater].
    cbn. rewrite not_elem_of_cons. split; [|by apply IH].
    unfold write_of in Hu.
    destruct (py_slot _ (v_index u)) as [s'|]; [|done].
    destruct (COLORS !! _); [|done]. injection Hu as <-. cbn. congruence. }
  apply py_slot_lt in Hs.
  unfold after_visits; cbn [colors text].
  rewrite !lookup_apply_writes by lia.
  rewrite !fmap_app, !fmap_cons, !last_write_app. cbn [last_write].
  rewrite (last_write_None (prod_map id fst <$> ws2)),
    (last_write_None (prod_map id snd <$> ws2));
    [|by rewrite <- list_fmap_compose..].
  cbn. by rewrite !decide_True.
Qed.

(** X4. A slot that no node of the input addresses keeps what [__init__]
    put there: when fewer nodes are supplied than declared the build ends
    normally and leaves a gap. *)
Theorem X4_build_unaddressed_slot (d : data) (t t' : Tree) (k : nat) :
  init COLORS d = inr t →
  build COLORS t = (t', inr tt) →
  Forall (λ i, py_slot (Z.to_nat (slots d)) i ≠ Some k) (indices d) →
  colors t' !! k = colors t !! k ∧ text t' !! k = text t !! k.
Proof.
  intros Hinit Hb Hfree.
  destruct (init_slots _ _ Hinit) as (Hlc & Hlt & Hd & He).
  destruct (build_fresh_inv _ _ _ Hinit Hb) as (ws & Hws & ->).
  assert (Hnone : k ∉ ws.*1).
  { unfold indices in Hfree. rewrite Forall_fmap in Hfree.
    clear -Hfree Hws. revert Hfree Hws. generalize (visits d) as vs. intros vs Hfree Hws.
    induction Hws as [|u w vs ws Hu _ IH]; [apply not_elem_of_nil|].
    apply Forall_cons in Hfree as [Hus Hfree].
    cbn. rewrite not_elem_of_cons. split; [|by apply IH].
    unfold write_of in Hu. cbn in Hus.
    destruct (py_slot _ (v_index u)) as [s'|]; [|done].
    destruct (COLORS !! _); [|done]. injection Hu as <-. cbn. congruence. }
  unfold after_visits; cbn [colors text].
  destruct (decide (k < Z.to_nat (slots d))%nat) as [Hk|Hk].
  - rewrite !lookup_apply_writes by lia.
    rewrite !last_write_None; [done|..]; by rewrite <- list_fmap_compose.
  - rewrite !lookup_ge_None_2; [done|..]; rewrite ?length_apply_writes; lia.
Qed.

End build_outcomes.

(** *** The order of the edges *)

Lemma parents_first_nil (root : Z) : parents_first root [].
Proof. intros j v Hj. by rewrite lookup_nil in Hj. Qed.

Lemma parents_first_cons_app (root : Z) (v : visit) (vs1 vs2 : list visit) :
  v_parent v = root →
  parents_first (v_index v) vs1 →
  parents_first root vs2 →
  parents_first root (v :: vs1 ++ vs2).
Proof.
  intros Hv H1 H2 [|j] u Hj.
  { injection Hj as <-. by left. }
  change ((vs1 ++ vs2) !! j = Some u) in Hj.
  apply lookup_app_Some in Hj as [Hj|[Hlen Hj]].
  - destruct (H1 j u Hj) as [Hp|(j' & w & Hlt & Hw & Hp)].
    + right. exists 0%nat, v. split_and!; [lia|done|done].
    + right. exists (S j'), w. split_and!; [lia| |done].
      change ((vs1 ++ vs2) !! j' = Some w). by apply lookup_app_l_Some.
  - destruct (H2 _ u Hj) as [Hp|(j' & w & Hlt & Hw & Hp)]; [by left|].
    right. exists (S (length vs1 + j')), w. split_and!; [lia| |done].
    change ((vs1 ++ vs2) !! (length vs1 + j')%nat = Some w).
    rewrite lookup_app_r by lia.
    by replace (length vs1 + j' - length vs1)%nat with j' by lia.
Qed.

Lemma child_visits_parents_first (n : node) :
  parents_first (master_index n) (child_visits n).
Proof.
  induction n as [i c|i c cs IH] using node_ind.
  { apply parents_first_nil. }
  cbn. induction IH as [|child rest Hchild _ IHrest].
  { apply parents_first_nil. }
  by apply parents_first_cons_app.
Qed.

Lemma top_visits_parents_first (ns : list node) :
  parents_first 0 (top_visits ns).
Proof.
  induction ns as [|n rest IH]; [apply parents_first_nil|].
  cbn. apply parents_first_cons_app; [done| |done].
  apply child_visits_parents_first.
Qed.

Section edge_order.

Variable COLORS : gmap string string.

(** X5. In the edge list of a fresh instance after the build, whatever its
    outcome, every edge starts at the root 0 or at a node that an earlier
    edge of the list leads to. *)
Theorem X5_build_edges_parent_first (d : data) (t : Tree) (j : nat) (p c : Z) :
  init COLORS d = inr t →
  edges (build COLORS t).1 !! j = Some (p, c) →
  p = 0 ∨ ∃ j' p', (j' < j)%nat ∧ edges (build COLORS t).1 !! j' = Some (p', p).
Proof.
  intros Hinit Hj.
  destruct (init_slots _ _ _ Hinit) as (_ & _ & Hd & He).
  destruct (build_frame COLORS t) as (_ & _ & _ & k & _ & Hedges & _).
  rewrite Hedges, He, Hd in *. cbn in *.
  rewrite list_lookup_fmap in Hj.
  destruct (take k (visits d) !! j) as [v|] eqn:Hv; [|done].
  injection Hj as <- <-.
  apply lookup_take_Some in Hv as [Hv Hjk].
  destruct (top_visits_parents_first (nodes d) j v Hv)
    as [Hp|(j' & u & Hlt & Hu & Hp)]; [by left|].
  right. exists j', (v_parent u). split; [done|].
  rewrite list_lookup_fmap, lookup_take_lt by lia.
  unfold visits. rewrite Hu. cbn. unfold edge_of. by rewrite Hp.
Qed.

End edge_order.

(** ** Further properties of [get_figure] *)

Lemma mapM_exn_cons {A B} (f : A → exn + B) (x : A) (l : list A) :
  mapM f (x :: l) =
    match f x with
    | inl e => inl e
    | inr y => match mapM f l with
               | inl e => inl e
               | inr k => inr (y :: k)
               end
    end.
Proof. reflexivity. Qed.

Lemma mapM_exn_inr {A B} (f : A → exn + B) (l : list A) (k : list B) :
  mapM f l = inr k ↔ Forall2 (λ x y, f x = inr y) l k.
Proof.
  revert k. induction l as [|x l IH]; intros k.
  - split; [intros [= <-]; constructor|]. by intros ->%Forall2_nil_inv_l.
  - rewrite mapM_exn_cons. split.
    + destruct (f x) as [e|y] eqn:Hx; [done|].
      destruct (mapM f l) as [e|k'] eqn:Hl; [done|].
      intros [= <-]. constructor; [done|]. by apply IH.
    + intros (y & k' & Hy & Hk' & ->)%Forall2_cons_inv_l.
      rewrite Hy. apply IH in Hk'. by rewrite Hk'.
Qed.

Lemma mapM_exn_length {A B} (f : A → exn + B) (l : list A) (k : list B) :
  mapM f l = inr k → length k = length l.
Proof. intros Hk%mapM_exn_inr. symmetry. by eapply Forall2_length. Qed.

Lemma segments_bind {A B} (g1 g2 : B → option A) (pts : list B) :
  (∀ p, is_Some (g1 p)) → (∀ p, is_Some (g2 p)) →
  segments (pts ≫= λ p, [g1 p; g2 p; None]) = Some (length pts).
Proof.
  intros H1 H2. induction pts as [|p pts IH]; [done|].
  cbn. destruct (H1 p) as [a ->], (H2 p) as [b ->].
  cbn in IH. by rewrite IH.
Qed.

Lemma fmap_bind_triple {A B C} (f : B → C) (g1 g2 g3 : A → B)
    (pts : list A) :
  f <$> (pts ≫= λ p, [g1 p; g2 p; g3 p]) =
  pts ≫= λ p, [f (g1 p); f (g2 p); f (g3 p)].
Proof.
  induction pts as [|p pts IH]; [done|].
  cbn in *. by rewrite IH.
Qed.

Section figure_shape.

Variable COLORS : gmap string string.
Context `{NumOps num, Igraph num}.

(** The loop over the edges looks both ends of every edge up in
    [positions] and appends one segment per edge to either list. *)
Lemma edge_coords_inr (positions : gmap Z (num * num)) (max_y : num)
    (es : list (Z * Z)) (ex ey ex' ey' : list (option num)) :
  edge_coords positions max_y es ex ey = inr (ex', ey') →
  ∃ pts : list ((num * num) * (num * num)),
    Forall2 (λ e pq, positions !! e.1 = Some pq.1 ∧
                     positions !! e.2 = Some pq.2) es pts ∧
    ex' = ex ++ (pts ≫= λ pq, [Some (flip_depth max_y pq.1.2);
                               Some (flip_depth max_y pq.2.2); None]) ∧
    ey' = ey ++ (pts ≫= λ pq, [Some pq.1.1; Some pq.2.1; None]).
Proof.
  revert ex ey. induction es as [|e es IH]; intros ex ey.
  { intros [= <- <-]. exists []. by rewrite !app_nil_r. }
  cbn [edge_coords]. unfold mbind, exn_bind, positions_getitem.
  destruct (positions !! e.1) as [p0|] eqn:Hp0; [|done].
  destruct (positions !! e.2) as [p1|] eqn:Hp1; [|done].
  intros (pts & Hpts & -> & ->)%IH.
  exists ((p0, p1) :: pts). split_and!.
  - by constructor.
  - by rewrite <- app_assoc.
  - by rewrite <- app_assoc.
Qed.

Lemma raw_coords_inr (positions : gmap Z (num * num)) (max_y : num)
    (es : list (Z * Z)) (raw : coords num) :
  raw_coords positions max_y es = inr raw →
  length (nodes_x raw) = size positions ∧
  length (nodes_y raw) = size positions ∧
  Forall (λ e, is_Some (positions !! e.1) ∧ is_Some (positions !! e.2)) es ∧
  ∀ horizontal,
    segments (edges_x (orient horizontal raw)) = Some (length es) ∧
    segments (edges_y (orient horizontal raw)) = Some (length es).
Proof.
  unfold raw_coords, mbind, exn_bind.
  exn_case nx Hnx. exn_case ny Hny. exn_case exy Hexy.
  destruct exy as [ex ey].
  intros [= <-]. cbn.
  apply mapM_exn_length in Hnx, Hny.
  rewrite length_seqZ, Nat2Z.id in Hnx, Hny.
  apply edge_coords_inr in Hexy as (pts & Hpts & -> & ->).
  split_and!; [done..| |].
  - eapply Forall2_Forall_l; [exact Hpts|].
    apply Forall_true. intros pq e [He1 He2]. by rewrite He1, He2.
  - apply Forall2_length in Hpts as ->.
    intros [|]; cbn; split.
    + by apply segments_bind.
    + by apply segments_bind.
    + rewrite fmap_bind_triple.
      apply (segments_bind (λ pq, mirror (Some (flip_depth max_y pq.1.2)))
                           (λ pq, mirror (Some (flip_depth max_y pq.2.2))));
        intros pq; cbn; by destruct (num_truth _).
    + rewrite fmap_bind_triple.
      apply (segments_bind (λ pq, mirror (Some pq.1.1))
                           (λ pq, mirror (Some pq.2.1)));
        intros pq; cbn; by destruct (num_truth _).
Qed.

(** The dictionary [positions] has exactly the keys [0 .. n-1]. *)
Lemma positions_keys (layout : list (num * num)) (n : Z)
    (ps : list (Z * (num * num))) :
  mapM (λ k, p ← layout_getitem layout k; mret (k, p)) (seqZ 0 n) = inr ps →
  size (list_to_map (reverse ps) : gmap Z (num * num)) = Z.to_nat n ∧
  ∀ k, is_Some ((list_to_map (reverse ps) : gmap Z (num * num)) !! k)
       → 0 ≤ k < n.
Proof.
  intros Hps%mapM_exn_inr.
  assert (ps.*1 = seqZ 0 n) as Hkeys.
  { revert Hps. generalize (seqZ 0 n) as ks. intros ks Hps.
    induction Hps as [|k kp ks ps Hk _ IH]; [done|].
    cbn. rewrite IH. f_equal.
    unfold mbind, exn_bind in Hk.
    destruct (layout_getitem layout k); [done|]. by injection Hk as <-. }
  assert (NoDup (reverse ps).*1) as Hnd.
  { rewrite fmap_reverse, Hkeys, reverse_Permutation. apply NoDup_seqZ. }
  split.
  - rewrite map_size_list_to_map by done.
    rewrite length_reverse, <- (length_fmap fst), Hkeys. apply length_seqZ.
  - intros k Hk.
    assert (k ∈ (reverse ps).*1) as Hin.
    { destruct (decide (k ∈ (reverse ps).*1)) as [|Hn]; [done|].
      apply (not_elem_of_list_to_map_1 (M := gmap Z)) in Hn.
      rewrite Hn in Hk. by destruct Hk. }
    rewrite fmap_reverse, elem_of_reverse, Hkeys, elem_of_seqZ in Hin. lia.
Qed.

Lemma py_max_inr (ys : list num) (m : num) :
  py_max ys = inr m → ys ≠ [].
Proof. by destruct ys. Qed.

(** What a run of lines 138-157 that ends normally has established. *)
Lemma layout_coords_inr (t : Tree) (raw : coords num) :
  layout_coords t = inr raw →
  0 ≤ nodes_count (tree_data t) ∧
  length (nodes_x raw) = Z.to_nat (nodes_count (tree_data t) + 1) ∧
  length (nodes_y raw) = Z.to_nat (nodes_count (tree_data t) + 1) ∧
  Forall (λ e, (0 ≤ e.1 ≤ nodes_count (tree_data t)) ∧
               (0 ≤ e.2 ≤ nodes_count (tree_data t))) (edges t) ∧
  ∀ horizontal,
    segments (edges_x (orient horizontal raw)) = Some (length (edges t)) ∧
    segments (edges_y (orient horizontal raw)) = Some (length (edges t)).
Proof.
  unfold layout_coords. unfold mbind at 1 2 3 4. unfold exn_bind.
  exn_case layout Hlayout. exn_case ps Hps. exn_case ys Hys.
  exn_case max_y Hmax.
  intros (Hnx & Hny & Hes & Hseg)%raw_coords_inr.
  destruct (positions_keys _ _ _ Hps) as [Hsize Hkeys].
  apply py_max_inr in Hmax. apply mapM_exn_length in Hys.
  rewrite length_seqZ in Hys.
  assert (0 ≤ nodes_count (tree_data t)) as Hn.
  { destruct ys; [done|]. cbn in Hys. lia. }
  split_and!; [done|by rewrite Hnx|by rewrite Hny| |done].
  eapply Forall_impl; [exact Hes|]. cbn.
  intros e [H1%Hkeys H2%Hkeys]. lia.
Qed.

(** X7. A figure that [get_figure] returns for a fresh instance has one
    x and one y coordinate, one color and one label per node, the root
    included, and its edge lists hold one segment per edge: two coordinates
    followed by None.  The declared count is then not negative. *)
Theorem X7_get_figure_shape (d : data) (horizontal : bool) (t t' : Tree)
    (f : figure num) :
  init COLORS d = inr t →
  get_figure COLORS horizontal t = (t', inr f) →
  0 ≤ nodes_count d ∧
  length (nodes_x (fig_coords f)) = Z.to_nat (nodes_count d + 1) ∧
  length (nodes_y (fig_coords f)) = Z.to_nat (nodes_count d + 1) ∧
  length (fig_marker_color f) = Z.to_nat (nodes_count d + 1) ∧
  length (fig_text f) = Z.to_nat (nodes_count d + 1) ∧
  segments (edges_x (fig_coords f)) = Some (length (visits d)) ∧
  segments (edges_y (fig_coords f)) = Some (length (visits d)).
Proof.
  intros Hinit (Hb & c & line & Hc & _ & ->)%get_figure_inv.
  destruct (init_slots _ _ _ Hinit) as (Hlc & Hlt & Hd & He).
  apply plot_coords_inv in Hc as (raw & Hraw & ->).
  apply layout_coords_inr in Hraw as (Hn & Hnx & Hny & _ & Hseg).
  destruct (build_frame COLORS t) as (Hd' & Hlc' & Hlt' & k & _ & Hedges & Hk).
  rewrite Hb in Hd', Hlc', Hlt', Hedges, Hk. cbn in Hd', Hlc', Hlt', Hedges, Hk.
  subst k. rewrite firstn_all, He, Hd in Hedges. cbn in Hedges.
  rewrite Hd', Hd in *. rewrite Hedges, length_fmap in Hseg.
  assert (Z.to_nat (slots d) = Z.to_nat (nodes_count d + 1)) as Hs.
  { unfold slots, range_len. lia. }
  cbn [fig_coords fig_marker_color fig_text].
  split_and!; [done| | |lia|lia|apply Hseg..].
  - destruct horizontal; cbn; rewrite ?length_fmap; done.
  - destruct horizontal; cbn; rewrite ?length_fmap; done.
Qed.

(** X6. [get_figure] returns a figure for a fresh instance only if every
    index of the input lies in [0, nodes_count]. *)
Theorem X6_get_figure_indices_in_range (d : data) (horizontal : bool)
    (t t' : Tree) (f : figure num) :
  init COLORS d = inr t →
  get_figure COLORS horizontal t = (t', inr f) →
  Forall (λ i, 0 ≤ i ≤ nodes_count d) (indices d).
Proof.
  intros Hinit (Hb & c & line & Hc & _ & ->)%get_figure_inv.
  destruct (init_slots _ _ _ Hinit) as (Hlc & Hlt & Hd & He).
  apply plot_coords_inv in Hc as (raw & Hraw & ->).
  apply layout_coords_inr in Hraw as (_ & _ & _ & Hes & _).
  destruct (build_frame COLORS t) as (Hd' & _ & _ & k & _ & Hedges & Hk).
  rewrite Hb in Hd', Hedges, Hk. cbn in Hd', Hedges, Hk.
  subst k. rewrite firstn_all, He, Hd in Hedges. cbn in Hedges.
  rewrite Hd', Hd, Hedges in Hes.
  unfold indices. rewrite Forall_fmap in Hes. rewrite Forall_fmap.
  eapply Forall_impl; [exact Hes|]. cbn. tauto.
Qed.

Lemma mapM_exn_ext {A B} (f g : A → exn + B) (l : list A) :
  Forall (λ x, f x = g x) l → mapM f l = mapM g l.
Proof.
  induction 1 as [|x l Hx _ IH]; [done|].
  by rewrite !mapM_exn_cons, Hx, IH.
Qed.

Lemma imap_const_fmap {A B} (h : A → B) (l : list A) :
  imap (λ _, h) l = h <$> l.
Proof. induction l as [|x l IH]; [done|]. cbn. f_equal. exact IH. Qed.

(** Reading [layout[k]] for every [k] of [range(n)] gives the first [n]
    entries of the layout, each with its position. *)
Lemma mapM_layout_getitem {B} (g : Z → num * num → B)
    (layout : list (num * num)) (n : Z) (out : list B) :
  mapM (λ k, p ← layout_getitem layout k; mret (g k p)) (seqZ 0 n) = inr out →
  (Z.to_nat n ≤ length layout)%nat ∧
  out = imap (λ i p, g (Z.of_nat i) p) (take (Z.to_nat n) layout).
Proof.
  intros Hout%mapM_exn_inr.
  assert (Hlen : length out = Z.to_nat n).
  { apply Forall2_length in Hout. by rewrite length_seqZ in Hout. }
  assert (Hget : ∀ i, (i < Z.to_nat n)%nat →
            ∃ p, layout !! i = Some p ∧ out !! i = Some (g (Z.of_nat i) p)).
  { intros i Hi.
    assert (seqZ 0 n !! i = Some (Z.of_nat i)) as Hk.
    { by rewrite lookup_seqZ_lt by lia. }
    destruct (Forall2_lookup_l _ _ _ _ _ Hout Hk) as (y & Hy & Hf).
    unfold mbind, exn_bind, layout_getitem in Hf. rewrite Nat2Z.id in Hf.
    destruct (layout !! i) as [p|]; [|done].
    injection Hf as <-. eauto. }
  split.
  - destruct (Z.to_nat n) as [|m] eqn:Hm; [lia|].
    destruct (Hget m) as (p & Hp & _); [lia|].
    apply lookup_lt_Some in Hp. lia.
  - apply list_eq. intros i. rewrite list_lookup_imap.
    destruct (decide (i < Z.to_nat n)%nat) as [Hi|Hi].
    + destruct (Hget i Hi) as (p & Hp & ->).
      by rewrite lookup_take_lt, Hp by done.
    + rewrite lookup_ge_None_2 by lia.
      by rewrite lookup_take_ge by lia.
Qed.

(** Looking a key up in [positions] is reading the layout at that key. *)
Lemma positions_lookup (layout : list (num * num)) (n : Z)
    (ps : list (Z * (num * num))) (k : Z) :
  mapM (λ k, p ← layout_getitem layout k; mret (k, p)) (seqZ 0 n) = inr ps →
  (list_to_map (reverse ps) : gmap Z (num * num)) !! k =
    if decide (0 ≤ k < n) then layout !! Z.to_nat k else None.
Proof.
  intros Hps. destruct (positions_keys _ _ _ Hps) as [_ Hkeys].
  apply mapM_layout_getitem in Hps as [Hn ->].
  set (ps := imap _ _).
  assert (NoDup (reverse ps).*1) as Hnd.
  { rewrite fmap_reverse, reverse_Permutation. subst ps.
    rewrite fmap_imap. unfold compose; cbn.
    apply NoDup_alt. intros i j k1. rewrite !list_lookup_imap.
    destruct (take _ _ !! i), (take _ _ !! j); cbn; try done.
    intros [= <-] [= ?]. lia. }
  case_decide as Hk.
  - assert (is_Some (layout !! Z.to_nat k)) as [p Hp].
    { apply lookup_lt_is_Some. lia. }
    rewrite Hp. apply elem_of_list_to_map; [done|].
    apply elem_of_reverse, list_elem_of_lookup. exists (Z.to_nat k).
    subst ps. rewrite list_lookup_imap, lookup_take_lt, Hp by lia.
    cbn. do 2 f_equal. lia.
  - apply eq_None_not_Some. intros Hsome. by apply Hkeys in Hsome.
Qed.

(** The detour through the dictionary [positions] loses nothing. *)
Lemma layout_coords_from_layout (t : Tree) (raw : coords num) :
  layout_coords t = inr raw →
  let n := Z.to_nat (nodes_count (tree_data t) + 1) in
  ∃ layout max_y pts,
    layout_reingold_tilford (nodes_count (tree_data t) + 1) (edges t)
      = inr layout ∧
    (n ≤ length layout)%nat ∧
    py_max (snd <$> take n layout) = inr max_y ∧
    nodes_x raw = (λ p, flip_depth max_y p.2) <$> take n layout ∧
    nodes_y raw = fst <$> take n layout ∧
    Forall2 (λ e pq, 0 ≤ e.1 ∧ 0 ≤ e.2 ∧
                     take n layout !! Z.to_nat e.1 = Some pq.1 ∧
                     take n layout !! Z.to_nat e.2 = Some pq.2)
            (edges t) pts ∧
    edges_x raw = pts ≫= (λ pq, [Some (flip_depth max_y pq.1.2);
                                 Some (flip_depth max_y pq.2.2); None]) ∧
    edges_y raw = pts ≫= (λ pq, [Some pq.1.1; Some pq.2.1; None]).
Proof.
  unfold layout_coords. unfold mbind at 1 2 3 4. unfold exn_bind.
  exn_case layout Hlayout. exn_case ps Hps. exn_case ys Hys.
  exn_case max_y Hmax.
  set (n := nodes_count (tree_data t) + 1) in *.
  pose proof (λ k, positions_lookup _ _ _ k Hps) as Hpos.
  destruct (positions_keys _ _ _ Hps) as [Hsize _].
  assert (0 < n) as Hn0.
  { pose proof (mapM_exn_length _ _ _ Hys) as Hlen.
    rewrite length_seqZ in Hlen. apply py_max_inr in Hmax.
    destruct ys; [done|]. cbn in Hlen. lia. }
  apply mapM_layout_getitem in Hys as [Hn ->].
  set (positions := list_to_map (reverse ps)) in *.
  unfold raw_coords, mbind, exn_bind. rewrite Hsize, Z2Nat.id by lia.
  assert (Hget : Forall (λ k, positions_getitem positions k
                              = layout_getitem layout k)
                        (seqZ 0 n)).
  { apply Forall_seqZ. intros k Hk.
    unfold positions_getitem, layout_getitem.
    rewrite Hpos, decide_True by lia.
    destruct (lookup_lt_is_Some_2 layout (Z.to_nat k)) as [p ->]; [lia|done]. }
  rewrite (mapM_exn_ext _ (λ k, p ← layout_getitem layout k;
                                mret (flip_depth max_y p.2))); cycle 1.
  { eapply Forall_impl; [exact Hget|]. cbn. by intros k ->. }
  rewrite (mapM_exn_ext (λ k, match positions_getitem positions k with
                              | inl e => inl e | inr a => mret a.1 end)
             (λ k, p ← layout_getitem layout k; mret p.1)); cycle 1.
  { eapply Forall_impl; [exact Hget|]. cbn. by intros k ->. }
  exn_case nx Hnx. exn_case ny Hny. exn_case exy Hexy.
  destruct exy as [ex ey].
  intros [= <-]. cbn [nodes_x nodes_y edges_x edges_y fst snd].
  apply mapM_layout_getitem in Hnx as [_ ->], Hny as [_ ->].
  apply edge_coords_inr in Hexy as (pts & Hpts & -> & ->).
  exists layout, max_y, pts. cbn zeta.
  rewrite imap_const_fmap in Hmax. rewrite !imap_const_fmap.
  split_and!; [done..| |done|done].
  eapply Forall2_impl; [exact Hpts|]. cbn.
  intros e pq [H1 H2]. rewrite !Hpos in H1, H2.
  repeat case_decide; try done.
  rewrite !lookup_take_lt by lia. split_and!; [lia|lia|done|done].
Qed.

(** X9. The coordinates of lines 138-157 come straight from the layout:
    node [k] has the x coordinate [2 * max_y - layout[k][1]] and the y
    coordinate [layout[k][0]], where [max_y] is the largest second
    coordinate of the layout, and the segment of an edge is made of the
    same two expressions at the layout entries of its two ends. *)
Theorem X9_layout_coords_content (t : Tree) (raw : coords num) :
  layout_coords t = inr raw →
  let n := Z.to_nat (nodes_count (tree_data t) + 1) in
  ∃ layout max_y pts,
    layout_reingold_tilford (nodes_count (tree_data t) + 1) (edges t)
      = inr layout ∧
    (n ≤ length layout)%nat ∧
    py_max (snd <$> take n layout) = inr max_y ∧
    nodes_x raw = (λ p, flip_depth max_y p.2) <$> take n layout ∧
    nodes_y raw = fst <$> take n layout ∧
    Forall2 (λ e pq, 0 ≤ e.1 ∧ 0 ≤ e.2 ∧
                     take n layout !! Z.to_nat e.1 = Some pq.1 ∧
                     take n layout !! Z.to_nat e.2 = Some pq.2)
            (edges t) pts ∧
    edges_x raw = pts ≫= (λ pq, [Some (flip_depth max_y pq.1.2);
                                 Some (flip_depth max_y pq.2.2); None]) ∧
    edges_y raw = pts ≫= (λ pq, [Some pq.1.1; Some pq.2.1; None]).
Proof. exact (layout_coords_from_layout t raw). Qed.

End figure_shape.

Lemma lookup_bind_triple {A B} (g1 g2 g3 : A → B) (pts : list A)
    (j : nat) (p : A) :
  pts !! j = Some p →
  (pts ≫= λ p, [g1 p; g2 p; g3 p]) !! (3 * j)%nat = Some (g1 p) ∧
  (pts ≫= λ p, [g1 p; g2 p; g3 p]) !! (3 * j + 1)%nat = Some (g2 p) ∧
  (pts ≫= λ p, [g1 p; g2 p; g3 p]) !! (3 * j + 2)%nat = Some (g3 p).
Proof.
  revert j. induction pts as [|q pts IH]; intros j Hj.
  { by rewrite lookup_nil in Hj. }
  destruct j as [|j].
  { injection Hj as ->. by split_and!. }
  destruct (IH j Hj) as (H1 & H2 & H3).
  replace (3 * S j)%nat with (S (S (S (3 * j)))) by lia.
  replace (S (S (S (3 * j))) + 1)%nat with (S (S (S (3 * j + 1)))) by lia.
  replace (S (S (S (3 * j))) + 2)%nat with (S (S (S (3 * j + 2)))) by lia.
  by split_and!.
Qed.

Section edges_and_nodes.

Variable COLORS : gmap string string.
Context `{NumOps num, Igraph num}.

(** Before the orientation is looked at, the segment of every edge runs
    from the coordinates of its first node to those of its second. *)
Lemma layout_coords_edges_join_nodes (t : Tree) (raw : coords num)
    (j : nat) (e : Z * Z) :
  layout_coords t = inr raw →
  edges t !! j = Some e →
  ∃ xa ya xb yb,
    nodes_x raw !! Z.to_nat e.1 = Some xa ∧
    nodes_y raw !! Z.to_nat e.1 = Some ya ∧
    nodes_x raw !! Z.to_nat e.2 = Some xb ∧
    nodes_y raw !! Z.to_nat e.2 = Some yb ∧
    edges_x raw !! (3 * j)%nat = Some (Some xa) ∧
    edges_x raw !! (3 * j + 1)%nat = Some (Some xb) ∧
    edges_x raw !! (3 * j + 2)%nat = Some None ∧
    edges_y raw !! (3 * j)%nat = Some (Some ya) ∧
    edges_y raw !! (3 * j + 1)%nat = Some (Some yb) ∧
    edges_y raw !! (3 * j + 2)%nat = Some None.
Proof.
  intros Hraw He.
  destruct (layout_coords_from_layout _ _ Hraw)
    as (layout & max_y & pts & _ & _ & _ & -> & -> & Hpts & -> & ->).
  destruct (Forall2_lookup_l _ _ _ _ _ Hpts He) as (pq & Hpq & _ & _ & Ha & Hb).
  exists (flip_depth max_y pq.1.2), pq.1.1, (flip_depth max_y pq.2.2), pq.2.1.
  rewrite !list_lookup_fmap, Ha, Hb.
  destruct (lookup_bind_triple
              (λ pq : (num * num) * (num * num), Some (flip_depth max_y pq.1.2))
              (λ pq, Some (flip_depth max_y pq.2.2)) (λ _, None) pts j pq Hpq)
    as (-> & -> & ->).
  destruct (lookup_bind_triple
              (λ pq : (num * num) * (num * num), Some pq.1.1)
              (λ pq, Some pq.2.1) (λ _, None) pts j pq Hpq)
    as (-> & -> & ->).
  by split_and!.
Qed.

(** X10. In a figure that [get_figure] returns for a fresh instance the
    segment of the [j]-th node of the traversal is made of the coordinates
    [raw] of lines 138-157 of its parent and of itself, as the node lists
    are.  In horizontal mode its two ends are exactly the plot coordinates
    of the two nodes.  In vertical mode the node lists hold the negated
    coordinates, and so does the segment, except that a coordinate that
    counts as false is left as it is.  Either way None closes the
    segment. *)
Theorem X10_get_figure_edges_join_nodes (d : data) (horizontal : bool)
    (t t' : Tree) (f : figure num) (j : nat) (v : visit) :
  init COLORS d = inr t →
  get_figure COLORS horizontal t = (t', inr f) →
  visits d !! j = Some v →
  ∃ raw xa ya xb yb,
    layout_coords t' = inr raw ∧
    nodes_x raw !! Z.to_nat (v_parent v) = Some xa ∧
    nodes_y raw !! Z.to_nat (v_parent v) = Some ya ∧
    nodes_x raw !! Z.to_nat (v_index v) = Some xb ∧
    nodes_y raw !! Z.to_nat (v_index v) = Some yb ∧
    nodes_x (fig_coords f) !! Z.to_nat (v_parent v)
      = Some (if horizontal then ya else num_neg xa) ∧
    nodes_y (fig_coords f) !! Z.to_nat (v_parent v)
      = Some (if horizontal then xa else num_neg ya) ∧
    nodes_x (fig_coords f) !! Z.to_nat (v_index v)
      = Some (if horizontal then yb else num_neg xb) ∧
    nodes_y (fig_coords f) !! Z.to_nat (v_index v)
      = Some (if horizontal then xb else num_neg yb) ∧
    edges_x (fig_coords f) !! (3 * j)%nat
      = Some (Some (if horizontal then ya
                    else if num_truth xa then num_neg xa else xa)) ∧
    edges_x (fig_coords f) !! (3 * j + 1)%nat
      = Some (Some (if horizontal then yb
                    else if num_truth xb then num_neg xb else xb)) ∧
    edges_x (fig_coords f) !! (3 * j + 2)%nat = Some None ∧
    edges_y (fig_coords f) !! (3 * j)%nat
      = Some (Some (if horizontal then xa
                    else if num_truth ya then num_neg ya else ya)) ∧
    edges_y (fig_coords f) !! (3 * j + 1)%nat
      = Some (Some (if horizontal then xb
                    else if num_truth yb then num_neg yb else yb)) ∧
    edges_y (fig_coords f) !! (3 * j + 2)%nat = Some None.
Proof.
  intros Hinit (Hb & c & line & Hc & _ & ->)%get_figure_inv Hv.
  destruct (init_slots _ _ _ Hinit) as (_ & _ & Hd & He).
  apply plot_coords_inv in Hc as (raw & Hraw & ->).
  destruct (build_frame COLORS t) as (_ & _ & _ & k & _ & Hedges & Hk).
  rewrite Hb in Hedges, Hk. cbn in Hedges, Hk.
  subst k. rewrite firstn_all, He, Hd in Hedges. cbn in Hedges.
  assert (edges t' !! j = Some (edge_of v)) as Hj.
  { by rewrite Hedges, list_lookup_fmap, Hv. }
  destruct (layout_coords_edges_join_nodes _ _ _ _ Hraw Hj)
    as (xa & ya & xb & yb & H1 & H2 & H3 & H4 & H5 & H6 & H7 & H8 & H9 & H10).
  cbn [edge_of fst snd] in *.
  assert (Hmirror : ∀ a, mirror (Some a)
                         = Some (if num_truth a then num_neg a else a)).
  { intros a. cbn. by destruct (num_truth a). }
  exists raw, xa, ya, xb, yb.
  destruct horizontal; cbn [fig_coords orient nodes_x nodes_y edges_x edges_y].
  - by split_and!.
  - rewrite !list_lookup_fmap, H1, H2, H3, H4, H5, H6, H7, H8, H9, H10.
    cbn [fmap option_fmap option_map]. rewrite !Hmirror. by split_and!.
Qed.

End edges_and_nodes.

(** ** Properties of the activation heat maps *)

Section network_properties.

Context `{Network.NumText num}.

Lemma setitem_inr {A} (l : list A) (i : Z) (v : A) :
  0 ≤ i < Z.of_nat (length l) →
  Network.setitem l i v = inr (<[Z.to_nat i := v]> l).
Proof.
  intros Hi. unfold Network.setitem, py_setitem.
  by rewrite bool_decide_eq_true_2.
Qed.

Lemma setitem_inl {A} (l : list A) (i : Z) (v : A) :
  Z.of_nat (length l) ≤ i →
  Network.setitem l i v = inl IndexError.
Proof.
  intros Hi. unfold Network.setitem, py_setitem.
  by rewrite !bool_decide_eq_false_2 by lia.
Qed.

(** Three writes at [index], [index + 1] and [index + 2]. *)
Lemma lookup_insert3 {A} (l : list A) (p : nat) (v : A) (q : nat) :
  (p + 2 < length l)%nat →
  <[S (S p) := v]> (<[S p := v]> (<[p := v]> l)) !! q =
    if decide (p ≤ q < p + 3)%nat then Some v else l !! q.
Proof.
  intros Hp. case_decide as Hq.
  - destruct (decide (q = S (S p))) as [->|]; [by rewrite list_lookup_insert_eq
      by (rewrite !length_insert; lia)|].
    rewrite list_lookup_insert_ne by done.
    destruct (decide (q = S p)) as [->|]; [by rewrite list_lookup_insert_eq
      by (rewrite !length_insert; lia)|].
    rewrite list_lookup_insert_ne by done.
    assert (q = p) as -> by lia. by rewrite list_lookup_insert_eq by lia.
  - rewrite !list_lookup_insert_ne by lia. done.
Qed.

(** The loop over the units, when every unit has room: unit [k] of the
    list fills the three cells from [index + 3k], with its value and its
    label; the other cells are left alone. *)
Lemma fill_units_ok (len : Z) (layer : list num) (i index : Z)
    (z : list (Network.zval num)) (text : list (option string)) :
  0 ≤ index →
  index + 3 * Z.of_nat (length layer) ≤ Z.of_nat (length z) →
  length text = length z →
  ∃ z' text',
    Network.fill_units len layer i index z text = inr (z', text') ∧
    length z' = length z ∧ length text' = length text ∧
    (∀ k a r, layer !! k = Some a → (r < 3)%nat →
       z' !! (Z.to_nat index + 3 * k + r)%nat = Some (Network.ZFloat a) ∧
       text' !! (Z.to_nat index + 3 * k + r)%nat
         = Some (Some (Network.unit_text (len - 1 - (i + Z.of_nat k)) a))) ∧
    (∀ q, (q < Z.to_nat index ∨ Z.to_nat index + 3 * length layer ≤ q)%nat →
       z' !! q = z !! q ∧ text' !! q = text !! q).
Proof.
  revert i index z text.
  induction layer as [|a layer IH]; intros i index z text Hi Hfit Hlen.
  { exists z, text. cbn. split_and!; [done..| |done].
    intros k a r Hk. by rewrite lookup_nil in Hk. }
  cbn [length] in Hfit. cbn [Network.fill_units].
  unfold mbind, exn_bind.
  rewrite !setitem_inr by (rewrite ?length_insert; lia).
  replace (Z.to_nat (index + 1)) with (S (Z.to_nat index)) by lia.
  replace (Z.to_nat (index + 2)) with (S (S (Z.to_nat index))) by lia.
  set (z3 := <[S (S (Z.to_nat index)) := _]> _).
  set (t3 := <[S (S (Z.to_nat index)) := _]> _).
  destruct (IH (i + 1) (index + 3) z3 t3) as (z' & text' & -> & Hz & Ht & Hin & Hout).
  { lia. }
  { subst z3. rewrite !length_insert. lia. }
  { subst z3 t3. by rewrite !length_insert. }
  assert (Hz3 : ∀ q, z3 !! q = if decide (Z.to_nat index ≤ q < Z.to_nat index + 3)%nat
                               then Some (Network.ZFloat a) else z !! q).
  { intros q. subst z3. apply lookup_insert3. lia. }
  assert (Ht3 : ∀ q, t3 !! q = if decide (Z.to_nat index ≤ q < Z.to_nat index + 3)%nat
                               then Some (Some (Network.unit_text (len - 1 - i) a))
                               else text !! q).
  { intros q. subst t3. apply lookup_insert3. lia. }
  exists z', text'. split_and!; [done|..].
  - rewrite Hz. subst z3. by rewrite !length_insert.
  - rewrite Ht. subst t3. by rewrite !length_insert.
  - intros [|k] b r Hk Hr.
    + injection Hk as <-.
      destruct (Hout (Z.to_nat index + 3 * 0 + r)%nat) as [-> ->]; [lia|].
      rewrite Hz3, Ht3, !decide_True by lia.
      by replace (i + Z.of_nat 0) with i by lia.
    + cbn in Hk. destruct (Hin k b r Hk Hr) as [Hzk Htk].
      replace (Z.to_nat index + 3 * S k + r)%nat
        with (Z.to_nat (index + 3) + 3 * k + r)%nat by lia.
      rewrite Hzk, Htk.
      by replace (i + 1 + Z.of_nat k) with (i + Z.of_nat (S k)) by lia.
  - intros q Hq. cbn [length] in Hq.
    destruct (Hout q) as [-> ->]; [lia|].
    rewrite Hz3, Ht3, !decide_False by lia. done.
Qed.

(** The loop raises IndexError as soon as a unit has no room. *)
Lemma fill_units_overflow (len : Z) (layer : list num) (i index : Z)
    (z : list (Network.zval num)) (text : list (option string)) :
  0 ≤ index ≤ Z.of_nat (length z) →
  Z.of_nat (length z) < index + 3 * Z.of_nat (length layer) →
  length text = length z →
  Network.fill_units len layer i index z text = inl IndexError.
Proof.
  revert i index z text.
  induction layer as [|a layer IH]; intros i index z text Hi Hfit Hlen.
  { cbn in Hfit. lia. }
  cbn [length] in Hfit. cbn [Network.fill_units].
  unfold mbind, exn_bind.
  destruct (decide (index + 2 < Z.of_nat (length z))) as [Hroom|Hroom].
  - rewrite !setitem_inr by (rewrite ?length_insert; lia).
    apply IH; rewrite ?length_insert; lia.
  - destruct (decide (index < Z.of_nat (length z))) as [H0|H0];
      [|by rewrite setitem_inl by lia].
    rewrite setitem_inr by lia.
    destruct (decide (index + 1 < Z.of_nat (length z))) as [H1|H1];
      [|by rewrite setitem_inl by (rewrite length_insert; lia)].
    rewrite setitem_inr by (rewrite length_insert; lia).
    by rewrite setitem_inl by (rewrite !length_insert; lia).
Qed.

(** X11. The heat map of a layer of units that fits has 215 cells: unit
    [u] fills three cells in a row, counted back from the last unit at the
    first cell (11 for layer 3, 92 otherwise), with its value and a hover
    text that names [u]; every other cell holds the integer 0 and no hover
    text. *)
Theorem X11_units_trace_cells (layer : Z) (current_layer : list num) :
  let start := Z.to_nat (if decide (layer = 3) then 11 else 92) in
  let len := length current_layer in
  (start + 3 * len ≤ 215)%nat →
  ∃ z text,
    Network.units_trace layer current_layer
      = inr (Network.Heat1D z (replicate 215 0) (seqZ 0 215) text) ∧
    length z = 215%nat ∧ length text = 215%nat ∧
    (∀ u a r, current_layer !! u = Some a → (r < 3)%nat →
       z !! (start + 3 * (len - 1 - u) + r)%nat = Some (Network.ZFloat a) ∧
       text !! (start + 3 * (len - 1 - u) + r)%nat
         = Some (Some (Network.unit_text (Z.of_nat u) a))) ∧
    (∀ q, (q < 215)%nat → (q < start ∨ start + 3 * len ≤ q)%nat →
       z !! q = Some (Network.ZInt 0) ∧ text !! q = Some None).
Proof.
  cbv zeta. unfold Network.units_trace.
  assert (0 ≤ (if decide (layer = 3) then 11 else 92)) as Hi
    by (case_decide; lia).
  revert Hi. generalize (if decide (layer = 3) then 11 else 92).
  intros index Hi Hfit.
  assert (Z.to_nat Network.MAX_Y = 215%nat) as HMAX by done.
  rewrite HMAX.
  destruct (fill_units_ok (Z.of_nat (length (reverse current_layer)))
              (reverse current_layer) 0 index
              (replicate 215 (Network.ZInt 0)) (replicate 215 None))
    as (z & text & Hrun & Hz & Ht & Hin & Hout).
  { done. }
  { rewrite length_reverse, length_replicate. lia. }
  { by rewrite !length_replicate. }
  rewrite length_replicate in Hz. rewrite length_replicate in Ht.
  rewrite length_reverse in Hin, Hout.
  unfold mbind, exn_bind. rewrite Hrun. cbn [fst snd].
  exists z, text. split_and!; [done..| |].
  - intros u a r Hu Hr.
    assert (u < length current_layer)%nat as Hlt
      by (by apply lookup_lt_Some in Hu).
    destruct (Hin (length current_layer - 1 - u)%nat a r) as [Hzq Htq];
      [|done|].
    { rewrite reverse_lookup by lia.
      by replace (length current_layer
                  - S (length current_layer - 1 - u))%nat with u by lia. }
    rewrite Hzq, Htq. split; [done|]. do 3 f_equal. lia.
  - intros q Hq Hout'.
    destruct (Hout q) as [-> ->]; [lia|].
    by rewrite !lookup_replicate_2 by lia.
Qed.

(** X12. A layer of units that does not fit between its first cell and
    cell 215, more than 68 units for layer 3 and more than 41 otherwise,
    raises IndexError. *)
Theorem X12_units_trace_overflow (layer : Z) (current_layer : list num) :
  let start := Z.to_nat (if decide (layer = 3) then 11 else 92) in
  (215 < start + 3 * length current_layer)%nat →
  Network.units_trace layer current_layer = inl IndexError.
Proof.
  cbv zeta. unfold Network.units_trace.
  assert (0 ≤ (if decide (layer = 3) then 11 else 92) ≤ 92) as Hi
    by (case_decide; lia).
  revert Hi. generalize (if decide (layer = 3) then 11 else 92).
  intros index Hi Hover.
  assert (Z.to_nat Network.MAX_Y = 215%nat) as HMAX by done.
  rewrite HMAX. unfold mbind, exn_bind.
  rewrite fill_units_overflow; [done|..].
  - rewrite length_replicate. lia.
  - rewrite length_reverse, length_replicate. lia.
  - by rewrite !length_replicate.
Qed.

(** The hover texts of a row, as the loop over [j] leaves them. *)
Lemma fill_row_ok (source : list num) (y : Z) (js : list nat)
    (row : list (option string)) :
  Forall (λ j, j < length source)%nat js →
  ∃ row',
    Network.fill_row source y js row = inr row' ∧
    length row' = length row ∧
    ∀ j, row' !! j =
      if decide (j ∈ js ∧ (j < length row)%nat)
      then (λ v, Some (Network.cell_text (Z.of_nat j) y v)) <$> source !! j
      else row !! j.
Proof.
  revert row. induction js as [|j js IH]; intros row Hjs.
  { exists row. split_and!; [done..|]. intros j.
    rewrite decide_False; [done|]. intros [Hj _]. by apply elem_of_nil in Hj. }
  apply Forall_cons in Hjs as [Hj Hjs].
  destruct (lookup_lt_is_Some_2 source j Hj) as [v Hv].
  cbn [Network.fill_row]. rewrite Hv.
  destruct (IH (<[j := Some (Network.cell_text (Z.of_nat j) y v)]> row) Hjs)
    as (row' & -> & Hlen & Hrow').
  rewrite length_insert in Hlen, Hrow'.
  exists row'. split_and!; [done..|]. intros q. rewrite Hrow'.
  destruct (decide (q = j)) as [->|Hq].
  - destruct (decide (j < length row)%nat) as [Hlt|Hge].
    + rewrite list_lookup_insert_eq by done. rewrite Hv. cbn.
      rewrite (decide_True (P := j ∈ j :: js ∧ _)) by (split; [left|done]).
      by case_decide.
    + rewrite list_insert_ge by lia.
      rewrite !decide_False by (intros [_ ?]; lia). done.
  - rewrite list_lookup_insert_ne by done.
    repeat case_decide; try done; exfalso;
      repeat match goal with
             | Hn : ¬ (_ ∧ _) |- _ => apply Hn; clear Hn
             | Hy : _ ∧ _ |- _ => destruct Hy
             end.
    + split; [by right|done].
    + split; [|done]. by destruct (elem_of_cons js q j) as [[?|?] _].
Qed.

(** A row that is at least as wide as the text gets the text of each of
    its first [w] entries. *)
Lemma fill_row_full (source : list num) (y : Z) (w : nat)
    (row : list (option string)) :
  (w ≤ length source)%nat → length row = w →
  Network.fill_row source y (seq 0 w) row =
    inr (imap (λ j v, Some (Network.cell_text (Z.of_nat j) y v))
              (take w source)).
Proof.
  intros Hw Hrow.
  destruct (fill_row_ok source y (seq 0 w) row) as (row' & -> & Hlen & Hrow').
  { apply Forall_forall. intros j Hj%elem_of_seq. lia. }
  f_equal. apply list_eq. intros j.
  rewrite Hrow', list_lookup_imap.
  destruct (decide (j < w)%nat) as [Hj|Hj].
  - rewrite decide_True by (rewrite elem_of_seq; lia).
    by rewrite lookup_take_lt.
  - rewrite decide_False by (rewrite elem_of_seq; lia).
    rewrite lookup_take_ge by lia. apply lookup_ge_None_2. lia.
Qed.

Lemma fill_rows_ok (top : Z) (half : list (list num)) (w : nat)
    (range_i : list nat) (text : list (list (option string))) :
  Forall (λ source, length source = w) half →
  Forall (λ row, length row = w) text →
  length text = length half →
  Forall (λ i, i < length half)%nat range_i →
  ∃ text',
    Network.fill_rows top half w range_i text = inr text' ∧
    length text' = length half ∧
    Forall (λ row, length row = w) text' ∧
    ∀ i, text' !! i =
      if decide (i ∈ range_i) then Network.expected_text top half !! i else text !! i.
Proof.
  intros Hhalf. revert text.
  induction range_i as [|i range_i IH]; intros text Htext Hlen Hrange.
  { exists text. split_and!; [done..|]. intros i.
    rewrite decide_False; [done|]. apply not_elem_of_nil. }
  apply Forall_cons in Hrange as [Hi Hrange].
  destruct (lookup_lt_is_Some_2 half i Hi) as [source Hsource].
  destruct (lookup_lt_is_Some_2 text i) as [row Hrow]; [lia|].
  cbn [Network.fill_rows]. rewrite Hsource, Hrow.
  pose proof (Forall_lookup_1 _ _ _ _ Hhalf Hsource) as Hw.
  pose proof (Forall_lookup_1 _ _ _ _ Htext Hrow) as Hr.
  cbn beta in Hw, Hr.
  rewrite fill_row_full by (done || lia).
  unfold mbind, exn_bind.
  rewrite take_ge by lia.
  set (row' := imap _ source).
  destruct (IH (<[i := row']> text)) as (text' & -> & Hlen' & Hall & Htext').
  { apply Forall_insert; [done|]. subst row'. by rewrite length_imap. }
  { by rewrite length_insert. }
  { done. }
  exists text'. split_and!; [done..|]. intros q. rewrite Htext'.
  destruct (decide (q ∈ range_i)) as [Hq|Hq].
  { by rewrite decide_True by (by right). }
  destruct (decide (q = i)) as [->|Hne].
  - rewrite decide_True by left.
    rewrite list_lookup_insert_eq by lia.
    unfold Network.expected_text. by rewrite list_lookup_imap, Hsource.
  - rewrite list_lookup_insert_ne by done.
    rewrite decide_False; [done|]. rewrite elem_of_cons. tauto.
Qed.

Lemma half_text_ok (top : Z) (half : list (list num)) (w : nat) :
  Forall (λ source, length source = w) half →
  Network.half_text top half = inr (Network.expected_text top half).
Proof.
  intros Hhalf. unfold Network.half_text.
  destruct half as [|row0 rest] eqn:Heq; [done|]. rewrite <- Heq in *.
  assert (length row0 = w) as Hw.
  { rewrite Heq in Hhalf. by apply Forall_cons in Hhalf as [? _]. }
  rewrite Hw.
  destruct (fill_rows_ok top half w (seq 0 (length half))
              (replicate (length half) (replicate w None)))
    as (text' & -> & Hlen & _ & Htext').
  { done. }
  { apply Forall_replicate. by rewrite length_replicate. }
  { by rewrite length_replicate. }
  { apply Forall_forall. intros i Hi%elem_of_seq. lia. }
  f_equal. apply list_eq. intros i. rewrite Htext'.
  destruct (decide (i < length half)%nat) as [Hi|Hi].
  - by rewrite decide_True by (rewrite elem_of_seq; lia).
  - rewrite decide_False by (rewrite elem_of_seq; lia).
    rewrite (lookup_ge_None_2 (replicate _ _))
      by (rewrite length_replicate; lia).
    unfold Network.expected_text. symmetry. apply lookup_ge_None_2.
    rewrite length_imap. lia.
Qed.

(** The two heat maps of a layer of rows, all of the width [w]. *)
Lemma rows_traces_ok (current_layer : list (list num)) (w : nat) :
  current_layer ≠ [] →
  Forall (λ source, length source = w) current_layer →
  let z1 := reverse (take 215 current_layer) in
  let z2 := reverse (drop 215 current_layer) in
  let x := seqZ 0 (Z.of_nat w) in
  let y := seqZ 0 (Z.of_nat (length z1)) in
  let zmin := if decide (w = 3%nat) then -2 else -1 in
  let zmax := if decide (w = 3%nat) then 2 else 1 in
  Network.rows_traces current_layer =
    inr (Network.Heat2D z1 x y (Network.expected_text 215 z1) zmin zmax,
         Network.Heat2D z2 x y (Network.expected_text 430 z2) zmin zmax).
Proof.
  intros Hne Hall. cbv zeta. unfold Network.rows_traces.
  assert (Z.to_nat Network.MAX_Y = 215%nat) as -> by done.
  pose proof (Forall_take _ 215 _ Hall) as Hall1.
  pose proof (Forall_drop _ 215 _ Hall) as Hall2.
  rewrite (half_text_ok _ _ w) by by rewrite Forall_reverse.
  rewrite (half_text_ok _ _ w) by by rewrite Forall_reverse.
  destruct (take 215 current_layer) as [|row0 first_half] eqn:Htake.
  { by destruct current_layer. }
  apply Forall_cons in Hall1 as [-> _].
  unfold mbind, exn_bind, mret, exn_ret.
  rewrite length_seqZ, Nat2Z.id.
  change (Network.INPUT_WIDTH) with 3. change (2 * Network.MAX_Y) with 430.
  change Network.MAX_Y with 215.
  rewrite length_reverse.
  repeat case_decide; try lia; done.
Qed.

(** X13. A layer of rows of one width, not empty, gives two heat maps that
    together hold every row once: the first 215 rows reversed, then the rest
    reversed.  Row [r] is shown with the hover text of its own values, under
    the row label [215 - length z1 + r] in the first map and
    [430 - length z2 + (r - 215)] in the second, so the label is the number
    of the row exactly when that half has 215 rows. *)
Theorem X13_rows_traces_cells (current_layer : list (list num)) (w : nat) :
  current_layer ≠ [] →
  Forall (λ source, length source = w) current_layer →
  ∃ z1 z2 x y t1 t2 zmin zmax,
    Network.rows_traces current_layer =
      inr (Network.Heat2D z1 x y t1 zmin zmax,
           Network.Heat2D z2 x y t2 zmin zmax) ∧
    reverse z1 ++ reverse z2 = current_layer ∧
    length z1 = (length current_layer `min` 215)%nat ∧
    x = seqZ 0 (Z.of_nat w) ∧ y = seqZ 0 (Z.of_nat (length z1)) ∧
    ∀ (r j : nat) source v,
      current_layer !! r = Some source → source !! j = Some v →
      if decide (r < 215)%nat then
        z1 !! (length z1 - 1 - r)%nat = Some source ∧
        t1 !! (length z1 - 1 - r)%nat ≫= (.!! j) =
          Some (Some (Network.cell_text (Z.of_nat j)
                        (215 - Z.of_nat (length z1) + Z.of_nat r) v))
      else
        z2 !! (length z2 - 1 - (r - 215))%nat = Some source ∧
        t2 !! (length z2 - 1 - (r - 215))%nat ≫= (.!! j) =
          Some (Some (Network.cell_text (Z.of_nat j)
                        (430 - Z.of_nat (length z2) + Z.of_nat (r - 215)) v)).
Proof.
  intros Hne Hall.
  eexists _, _, _, _, _, _, _, _.
  split; [by apply rows_traces_ok|].
  split; [by rewrite !reverse_involutive, take_drop|].
  split; [rewrite length_reverse, length_take; apply Nat.min_comm|].
  split; [done|]. split; [done|].
  intros r j source v Hr Hj.
  assert (r < length current_layer)%nat as Hlt by by apply lookup_lt_Some in Hr.
  rewrite !length_reverse, length_take, length_drop.
  unfold Network.expected_text. rewrite !list_lookup_imap.
  case_decide as Hr215.
  - rewrite reverse_lookup by (rewrite length_take; lia).
    rewrite length_take.
    pose proof (Nat.min_spec 215 (length current_layer)) as Hmin.
    replace (215 `min` length current_layer
             - S (215 `min` length current_layer - 1 - r))%nat with r by lia.
    rewrite lookup_take_lt, Hr by lia. split; [done|]. arith_cbn.
    rewrite list_lookup_imap, Hj. arith_cbn. do 3 f_equal. lia.
  - rewrite reverse_lookup by (rewrite length_drop; lia).
    rewrite length_drop.
    replace (length current_layer - 215
             - S (length current_layer - 215 - 1 - (r - 215)))%nat
      with (r - 215)%nat by lia.
    rewrite lookup_drop.
    replace (215 + (r - 215))%nat with r by lia.
    rewrite Hr. split; [done|]. arith_cbn.
    rewrite list_lookup_imap, Hj. arith_cbn. do 3 f_equal. lia.
Qed.






End network_properties.

(** *** Leaves *)

Lemma strip_empty_header (n : node) :
  master_index (strip_empty n) = master_index n ∧
  container (strip_empty n) = container n.
Proof. by destruct n as [i c [[|??]|]]. Qed.

Lemma child_visits_strip_empty (n : node) :
  child_visits (strip_empty n) = child_visits n.
Proof.
  induction n as [i c|i c cs IH] using node_ind; [reflexivity|].
  assert (child_visits (Node i c (Some (strip_empty <$> cs)))
          = child_visits (Node i c (Some cs))) as Hgo.
  { cbn [child_visits].
    induction IH as [|child rest Hchild _ IHrest]; [reflexivity|].
    destruct (strip_empty_header child) as [Hi Hc].
    rewrite fmap_cons.
    change ((fix go (cs : list node) : list visit := _) (?x :: ?l))
      with (visit_of i x :: child_visits x
            ++ (fix go (cs : list node) : list visit :=
                  match cs with
                  | [] => []
                  | child :: rest =>
                      visit_of i child :: child_visits child ++ go rest
                  end) l).
    rewrite Hchild, IHrest. f_equal. unfold visit_of. by rewrite Hi, Hc. }
  by destruct cs.
Qed.

Lemma top_visits_strip_empty (ns : list node) :
  top_visits (strip_empty <$> ns) = top_visits ns.
Proof.
  induction ns as [|n ns IH]; [done|].
  destruct (strip_empty_header n) as [Hi Hc].
  cbn. unfold visit_of. by rewrite Hi, Hc, child_visits_strip_empty, IH.
Qed.

Section leaves.

Variable COLORS : gmap string string.

(** A run of visits reads the edges, the colors and the texts of the
    instance, not its data. *)
Lemma run_visits_data (vs : list visit) (d1 d2 : data) (es : list (Z * Z))
    (cs ts : list string) :
  let r1 := run_visits COLORS vs (MkTree d1 es cs ts) in
  let r2 := run_visits COLORS vs (MkTree d2 es cs ts) in
  r1.2 = r2.2 ∧ edges r1.1 = edges r2.1 ∧
  colors r1.1 = colors r2.1 ∧ text r1.1 = text r2.1.
Proof.
  revert es cs ts. induction vs as [|v vs IH]; intros es cs ts; [done|].
  cbn [run_visits]. unfold mbind, M_bind, bind. step_unfold.
  destruct (COLORS !! v_container v) as [c|]; [|done]. step_simpl.
  destruct (py_setitem cs (v_index v) c) as [cs'|]; [|done]. step_simpl.
  destruct (py_setitem ts (v_index v) _) as [ts'|]; [|done].
  apply IH.
Qed.

(** X16. A node with an empty list of children is built like a node
    without the key, at any depth: the build of the input with the empty
    lists removed ends the same way, with the same edges, colors and
    texts. *)
Theorem X16_build_strip_empty (d : data) (t ts : Tree) :
  init COLORS d = inr t →
  init COLORS (strip_data d) = inr ts →
  (build COLORS ts).2 = (build COLORS t).2 ∧
  edges (build COLORS ts).1 = edges (build COLORS t).1 ∧
  colors (build COLORS ts).1 = colors (build COLORS t).1 ∧
  text (build COLORS ts).1 = text (build COLORS t).1.
Proof.
  intros (line & Hline & ->)%init_inv (line' & Hline' & ->)%init_inv.
  rewrite Hline in Hline'. injection Hline' as <-.
  rewrite !build_visits. cbn [tree_data].
  assert (visits (strip_data d) = visits d) as ->
    by apply top_visits_strip_empty.
  apply run_visits_data.
Qed.

End leaves.

(** ** The further properties on the sample inputs *)

Lemma X2_witness :
  ∃ t',
    build Samples.COLORS (Samples.tree MoreSamples.unknown_category)
      = (t', inl (KeyError "class")) ∧
    edges t' = [(0, 1); (0, 2)].
Proof.
  exact (X2_build_first_failure Samples.COLORS MoreSamples.unknown_category
           (Samples.tree MoreSamples.unknown_category)
           [Visit 0 1 "function"] [Visit 2 3 "variable"] (Visit 0 2 "class")
           eq_refl eq_refl
           ltac:(repeat constructor; [vm_compute; discriminate..|by eexists])
           ltac:(intros [_ [c Hc]]; vm_compute in Hc; discriminate)).
Defined.

Lemma X3_witness :
  ∃ t' c,
    build Samples.COLORS (Samples.tree Samples.duplicated) = (t', inr tt) ∧
    Samples.COLORS !! "variable" = Some c ∧
    colors t' !! 1%nat = Some c ∧
    text t' !! 1%nat = Some "(1, variable)".
Proof.
  set (t := Samples.tree Samples.duplicated).
  let r := eval vm_compute in (build Samples.COLORS t) in
  match r with
  | (?t', _) =>
      assert (Hb : build Samples.COLORS t = (t', inr tt))
        by (vm_compute; reflexivity);
      exists t'
  end.
  destruct (X3_build_last_writer_wins Samples.COLORS Samples.duplicated t _
              [Visit 0 1 "function"] [] (Visit 0 1 "variable") 1%nat
              eq_refl Hb eq_refl eq_refl ltac:(constructor))
    as (c & Hc & Hcol & Htxt).
  exists c. split; [exact Hb|]. split; [exact Hc|]. split; [exact Hcol|exact Htxt].
Defined.

Lemma X4_witness :
  ∃ t',
    build Samples.COLORS (Samples.tree Samples.undercount) = (t', inr tt) ∧
    colors t' !! 2%nat = Some "" ∧ text t' !! 2%nat = Some "".
Proof.
  set (t := Samples.tree Samples.undercount).
  let r := eval vm_compute in (build Samples.COLORS t) in
  match r with
  | (?t', _) =>
      assert (Hb : build Samples.COLORS t = (t', inr tt))
        by (vm_compute; reflexivity);
      exists t'
  end.
  split; [exact Hb|].
  exact (X4_build_unaddressed_slot Samples.COLORS Samples.undercount t _ 2%nat
           eq_refl Hb
           ltac:(repeat constructor; vm_compute; discriminate)).
Defined.

Lemma X5_witness :
  edges (build Samples.COLORS (Samples.tree Samples.scenario_A)).1 !! 1%nat
    = Some (1, 2) ∧
  (1 = 0 ∨ ∃ j' p', (j' < 1)%nat ∧
     edges (build Samples.COLORS (Samples.tree Samples.scenario_A)).1 !! j'
       = Some (p', 1)).
Proof.
  assert (H : edges (build Samples.COLORS
                       (Samples.tree Samples.scenario_A)).1 !! 1%nat
              = Some (1, 2)) by (vm_compute; reflexivity).
  split; [exact H|].
  exact (X5_build_edges_parent_first Samples.COLORS Samples.scenario_A
           (Samples.tree Samples.scenario_A) 1%nat 1 2 eq_refl H).
Defined.

Lemma X7_witness :
  ∃ t' f,
    Samples.figure_of false (Samples.tree Samples.scenario_A) = (t', inr f) ∧
    0 ≤ 3 ∧
    length (nodes_x (fig_coords f)) = 4%nat ∧
    length (nodes_y (fig_coords f)) = 4%nat ∧
    length (fig_marker_color f) = 4%nat ∧
    length (fig_text f) = 4%nat ∧
    segments (edges_x (fig_coords f)) = Some 3%nat ∧
    segments (edges_y (fig_coords f)) = Some 3%nat.
Proof.
  set (t := Samples.tree Samples.scenario_A).
  let r := eval vm_compute in (Samples.figure_of false t) in
  match r with
  | (?t', inr ?f) =>
      assert (Hf : Samples.figure_of false t = (t', inr f))
        by (vm_compute; reflexivity);
      exists t', f
  end.
  split; [exact Hf|].
  exact (@X7_get_figure_shape Samples.COLORS Z Samples.Z_num Samples.star_layout
           Samples.scenario_A false t _ _ eq_refl Hf).
Defined.

Lemma X6_witness :
  ∃ t' f,
    Samples.figure_of true (Samples.tree Samples.scenario_A) = (t', inr f) ∧
    Forall (λ i, 0 ≤ i ≤ 3) [1; 2; 3].
Proof.
  set (t := Samples.tree Samples.scenario_A).
  let r := eval vm_compute in (Samples.figure_of true t) in
  match r with
  | (?t', inr ?f) =>
      assert (Hf : Samples.figure_of true t = (t', inr f))
        by (vm_compute; reflexivity);
      exists t', f
  end.
  split; [exact Hf|].
  exact (@X6_get_figure_indices_in_range Samples.COLORS Z Samples.Z_num
           Samples.star_layout Samples.scenario_A true t _ _ eq_refl Hf).
Defined.

Lemma X9_witness :
  ∃ t' raw layout max_y pts,
    build Samples.COLORS (Samples.tree Samples.scenario_A) = (t', inr tt) ∧
    @layout_coords Z Samples.Z_num Samples.star_layout t' = inr raw ∧
    Samples.star_layout 4 (edges t') = inr layout ∧
    (4 ≤ length layout)%nat ∧
    @py_max Z Samples.Z_num (snd <$> take 4 layout) = inr max_y ∧
    nodes_x raw = (λ p, 2 * max_y - p.2) <$> take 4 layout ∧
    nodes_y raw = fst <$> take 4 layout ∧
    Forall2 (λ e pq, 0 ≤ e.1 ∧ 0 ≤ e.2 ∧
                     take 4 layout !! Z.to_nat e.1 = Some pq.1 ∧
                     take 4 layout !! Z.to_nat e.2 = Some pq.2)
            (edges t') pts ∧
    edges_x raw = pts ≫= (λ pq, [Some (2 * max_y - pq.1.2);
                                 Some (2 * max_y - pq.2.2); None]) ∧
    edges_y raw = pts ≫= (λ pq, [Some pq.1.1; Some pq.2.1; None]).
Proof.
  set (t := Samples.tree Samples.scenario_A).
  let r := eval vm_compute in (build Samples.COLORS t) in
  match r with
  | (?t', _) =>
      assert (Hb : build Samples.COLORS t = (t', inr tt))
        by (vm_compute; reflexivity);
      let c := eval vm_compute in
        (@layout_coords Z Samples.Z_num Samples.star_layout t') in
      match c with
      | inr ?raw =>
          assert (Hraw : @layout_coords Z Samples.Z_num Samples.star_layout t'
                         = inr raw) by (vm_compute; reflexivity);
          exists t', raw;
          destruct (@X9_layout_coords_content Z Samples.Z_num Samples.star_layout
                      t' raw Hraw)
            as (layout & max_y & pts & H1 & H2 & H3 & H4 & H5 & H6 & H7 & H8);
          exists layout, max_y, pts
      end
  end.
  split; [exact Hb|]. split; [exact Hraw|]. split; [exact H1|].
  split; [exact H2|]. split; [exact H3|]. split; [exact H4|].
  split; [exact H5|]. split; [exact H6|]. split; [exact H7|exact H8].
Defined.

Lemma X11_witness :
  ∃ z text,
    @Network.units_trace Z MoreSamples.Z_text 4 [7; 8; 9]
      = inr (Network.Heat1D z (replicate 215 0) (seqZ 0 215) text) ∧
    length z = 215%nat ∧ length text = 215%nat ∧
    (∀ u a r, [7; 8; 9] !! u = Some a → (r < 3)%nat →
       z !! (92 + 3 * (3 - 1 - u) + r)%nat = Some (Network.ZFloat a) ∧
       text !! (92 + 3 * (3 - 1 - u) + r)%nat
         = Some (Some (@Network.unit_text Z MoreSamples.Z_text (Z.of_nat u) a))) ∧
    (∀ q, (q < 215)%nat → (q < 92 ∨ 92 + 3 * 3 ≤ q)%nat →
       z !! q = Some (Network.ZInt 0) ∧ text !! q = Some None).
Proof.
  exact (@X11_units_trace_cells Z MoreSamples.Z_text 4 [7; 8; 9]
           ltac:(vm_compute; lia)).
Defined.

Lemma X12_witness :
  @Network.units_trace Z MoreSamples.Z_text 0 (replicate 42 5)
    = inl IndexError.
Proof.
  exact (@X12_units_trace_overflow Z MoreSamples.Z_text 0 (replicate 42 5)
           ltac:(vm_compute; lia)).
Defined.

Lemma X13_witness :
  ∃ z1 z2 x y t1 t2 zmin zmax,
    @Network.rows_traces Z MoreSamples.Z_text [[1; 2]; [3; 4]; [5; 6]] =
      inr (Network.Heat2D z1 x y t1 zmin zmax,
           Network.Heat2D z2 x y t2 zmin zmax) ∧
    reverse z1 ++ reverse z2 = [[1; 2]; [3; 4]; [5; 6]] ∧
    length z1 = 3%nat ∧
    x = [0; 1] ∧ y = seqZ 0 (Z.of_nat (length z1)) ∧
    ∀ (r j : nat) source v,
      [[1; 2]; [3; 4]; [5; 6]] !! r = Some source → source !! j = Some v →
      if decide (r < 215)%nat then
        z1 !! (length z1 - 1 - r)%nat = Some source ∧
        t1 !! (length z1 - 1 - r)%nat ≫= (.!! j) =
          Some (Some (@Network.cell_text Z MoreSamples.Z_text (Z.of_nat j)
                        (215 - Z.of_nat (length z1) + Z.of_nat r) v))
      else
        z2 !! (length z2 - 1 - (r - 215))%nat = Some source ∧
        t2 !! (length z2 - 1 - (r - 215))%nat ≫= (.!! j) =
          Some (Some (@Network.cell_text Z MoreSamples.Z_text (Z.of_nat j)
                        (430 - Z.of_nat (length z2) + Z.of_nat (r - 215)) v)).
Proof.
  exact (@X13_rows_traces_cells Z MoreSamples.Z_text [[1; 2]; [3; 4]; [5; 6]]
           2%nat ltac:(discriminate) ltac:(repeat constructor)).
Defined.



Lemma X10_witness :
  ∃ t' f raw xa ya xb yb,
    Samples.figure_of false (Samples.tree Samples.scenario_A) = (t', inr f) ∧
    @layout_coords Z Samples.Z_num Samples.star_layout t' = inr raw ∧
    nodes_x raw !! 1%nat = Some xa ∧
    nodes_y raw !! 1%nat = Some ya ∧
    nodes_x raw !! 2%nat = Some xb ∧
    nodes_y raw !! 2%nat = Some yb ∧
    nodes_x (fig_coords f) !! 1%nat = Some (- xa) ∧
    nodes_y (fig_coords f) !! 1%nat = Some (- ya) ∧
    nodes_x (fig_coords f) !! 2%nat = Some (- xb) ∧
    nodes_y (fig_coords f) !! 2%nat = Some (- yb) ∧
    edges_x (fig_coords f) !! 3%nat
      = Some (Some (if negb (xa =? 0) then - xa else xa)) ∧
    edges_x (fig_coords f) !! 4%nat
      = Some (Some (if negb (xb =? 0) then - xb else xb)) ∧
    edges_x (fig_coords f) !! 5%nat = Some None ∧
    edges_y (fig_coords f) !! 3%nat
      = Some (Some (if negb (ya =? 0) then - ya else ya)) ∧
    edges_y (fig_coords f) !! 4%nat
      = Some (Some (if negb (yb =? 0) then - yb else yb)) ∧
    edges_y (fig_coords f) !! 5%nat = Some None.
Proof.
  set (t := Samples.tree Samples.scenario_A).
  let r := eval vm_compute in (Samples.figure_of false t) in
  match r with
  | (?t', inr ?f) =>
      assert (Hf : Samples.figure_of false t = (t', inr f))
        by (vm_compute; reflexivity);
      exists t', f
  end.
  destruct (@X10_get_figure_edges_join_nodes Samples.COLORS Z Samples.Z_num
              Samples.star_layout Samples.scenario_A false t _ _ 1%nat
              (Visit 1 2 "variable") eq_refl Hf eq_refl)
    as (raw & xa & ya & xb & yb & Hrest).
  exists raw, xa, ya, xb, yb. split; [exact Hf|exact Hrest].
Defined.

Lemma X16_witness :
  (build Samples.COLORS
     (Samples.tree (strip_data MoreSamples.empty_children))).2
    = (build Samples.COLORS (Samples.tree MoreSamples.empty_children)).2 ∧
  edges (build Samples.COLORS
           (Samples.tree (strip_data MoreSamples.empty_children))).1
    = edges (build Samples.COLORS
               (Samples.tree MoreSamples.empty_children)).1 ∧
  colors (build Samples.COLORS
            (Samples.tree (strip_data MoreSamples.empty_children))).1
    = colors (build Samples.COLORS
                (Samples.tree MoreSamples.empty_children)).1 ∧
  text (build Samples.COLORS
          (Samples.tree (strip_data MoreSamples.empty_children))).1
    = text (build Samples.COLORS
              (Samples.tree MoreSamples.empty_children)).1.
Proof.
  exact (X16_build_strip_empty Samples.COLORS MoreSamples.empty_children
           (Samples.tree MoreSamples.empty_children)
           (Samples.tree (strip_data MoreSamples.empty_children))
           eq_refl eq_refl).
Defined.
